(** * Feature-service request builders of arcgis-rest-js

    A shallow embedding of
    [packages/arcgis-rest-feature-service/src/features.ts]: the five
    functions [getFeature], [queryFeatures], [addFeatures],
    [updateFeatures] and [deleteFeatures].

    The functions build option objects with object spread, write into
    the nested [params] object and hand the result to the [request]
    collaborator.  Whether a write lands in an object of the caller or
    in a fresh one is what several statements below are about, so the
    embedding keeps a store of objects addressed by reference. *)

From stdpp Require Import gmap strings pretty fin_maps.

Open Scope string_scope.

(** ** Values and the object store *)

Definition loc := positive.

(** JavaScript values as far as this module handles them.  A number is
    modelled by the integer it denotes (feature and object identifiers);
    objects and arrays are references into the store. *)
Inductive value :=
  | VUndef
  | VNull
  | VBool (b : bool)
  | VNum (n : Z)
  | VStr (s : string)
  | VRef (l : loc).
Arguments VRef l%_positive.

(** A plain object: its own enumerable data properties. *)
Abbreviation object := (gmap string value).
Abbreviation heap := (gmap loc object).

(** What a [throw] or a rejected promise carries: the [TypeError] raised
    by the engine on a bad property access, or any value. *)
Inductive reason :=
  | TypeError
  | Reason (v : value).

Inductive completion (A : Type) :=
  | Normal (a : A)
  | Throw (e : reason).
Arguments Normal {A} a.
Arguments Throw {A} e.

(** A promise is represented by how it settles, if it does. *)
Inductive promise :=
  | Pending
  | Fulfilled (v : value)
  | Rejected (e : reason).

(** ** Store-passing computations that may throw *)

Definition M (A : Type) : Type := heap → completion A * heap.

Definition ret {A} (a : A) : M A := λ h, (Normal a, h).
Definition throw {A} (e : reason) : M A := λ h, (Throw e, h).
Definition bind {A B} (m : M A) (k : A → M B) : M B :=
  λ h, match m h with
       | (Normal a, h') => k a h'
       | (Throw e, h') => (Throw e, h')
       end.

Global Instance M_ret : MRet M := @ret.
Global Instance M_bind : MBind M := λ A B k m, bind m k.

(** [if (b) { m }] *)
Definition when_ (b : bool) (m : M unit) : M unit :=
  if b then m else ret ().

(** ** Primitive operations on values *)

(** The object a reference denotes.  References held by a program are
    always live; the default is never reached from such a store. *)
Definition deref (h : heap) (l : loc) : object := default ∅ (h !! l).

(** A location above every allocated one. *)
Definition fresh_loc (h : heap) : loc :=
  map_fold (λ l _ m, Pos.max (Pos.succ l) m) 1%positive h.

(** Object creation: [{ ... }]. *)
Definition alloc (o : object) : M loc :=
  λ h, let l := fresh_loc h in (Normal l, <[l := o]> h).

(** [v.k] as an rvalue.  Reading a property of [undefined] or [null]
    throws.  None of the names this module reads is defined on the
    wrappers of booleans, numbers or strings, nor on [Object.prototype],
    so a missing own property reads as [undefined]. *)
Definition get (v : value) (k : string) : M value :=
  match v with
  | VUndef | VNull => throw TypeError
  | VRef l => λ h, (Normal (default VUndef (deref h l !! k)), h)
  | VBool _ | VNum _ | VStr _ => ret VUndef
  end.

(** [v.k = x].  The module is strict-mode code: creating a property on
    a primitive throws, as does any write through [undefined] or
    [null]. *)
Definition set (v : value) (k : string) (x : value) : M unit :=
  match v with
  | VRef l => λ h, (Normal (), <[l := <[k := x]> (deref h l)]> h)
  | _ => throw TypeError
  end.

(** [{ ...a, ...b }]: the own properties of [a], then those of [b],
    later ones winning. *)
Definition spread (a b : object) : object := b ∪ a.

(** The own properties an object reference contributes to a spread. *)
Definition props (l : loc) : M object := λ h, (Normal (deref h l), h).

(** ToBoolean. *)
Definition truthy (v : value) : bool :=
  match v with
  | VUndef | VNull => false
  | VBool b => b
  | VNum n => negb (n =? 0)%Z
  | VStr s => negb (String.eqb s EmptyString)
  | VRef _ => true
  end.

(** The largest magnitude at which every integer is a JavaScript number
    and prints as its plain decimal numeral. *)
Definition MAX_SAFE_INTEGER : Z := 9007199254740991.
Definition safe_integer (n : Z) : Prop :=
  (- MAX_SAFE_INTEGER ≤ n ≤ MAX_SAFE_INTEGER)%Z.

(** ToString, as applied by a template literal.  It is exact on
    [undefined], [null], booleans, strings and integers within the safe
    range, which print as their decimal numeral; a larger number prints
    in exponent form in JavaScript, and an array prints its elements
    where a plain object prints ["[object Object]"]. *)
Definition ToString (v : value) : string :=
  match v with
  | VUndef => "undefined"
  | VNull => "null"
  | VBool true => "true"
  | VBool false => "false"
  | VNum n => pretty n
  | VStr s => s
  | VRef _ => "[object Object]"
  end.

(** [p.then(cb)]: the callback runs on the fulfilment value, in the
    store of that moment; what it returns fulfils the derived promise,
    what it throws rejects it.  A rejection passes through. *)
Definition then_ (p : promise) (cb : value → M value) : M promise :=
  match p with
  | Pending => ret Pending
  | Rejected e => ret (Rejected e)
  | Fulfilled v => λ h,
      match cb v h with
      | (Normal r, h') => (Normal (Fulfilled r), h')
      | (Throw e, h') => (Normal (Rejected e), h')
      end
  end.

(** The [request(url, options)] collaborator of
    [@esri/arcgis-rest-request]: given the URL and the options value it
    returns a promise, or throws. *)
Definition transport : Type := string → value → M promise.

(** ** The five functions *)

Section FeatureService.

Variable request : transport.

Definition getFeature (requestOptions : loc) : M promise :=
  u ← get (VRef requestOptions) "url";
  i ← get (VRef requestOptions) "id";
  let url := ToString u +:+ "/" +:+ ToString i in
  d ← alloc {[ "httpMethod" := VStr "GET" ]};
  dp ← props d;
  rp ← props requestOptions;
  options ← alloc (spread dp rp);
  p ← request url (VRef options);
  then_ p (λ response, get response "feature").

Definition queryFeatures (requestOptions : loc) : M promise :=
  e ← alloc ∅;
  d ← alloc (<[ "httpMethod" := VStr "GET" ]> {[ "params" := VRef e ]});
  dp ← props d;
  rp ← props requestOptions;
  options ← alloc (spread dp rp);
  ps ← get (VRef options) "params";
  w ← get ps "where";
  when_ (negb (truthy w))
    (ps ← get (VRef options) "params"; set ps "where" (VStr "1=1"));;
  ps ← get (VRef options) "params";
  f ← get ps "outFields";
  when_ (negb (truthy f))
    (ps ← get (VRef options) "params"; set ps "outFields" (VStr "*"));;
  u ← get (VRef requestOptions) "url";
  request (ToString u +:+ "/query") (VRef options).

Definition addFeatures (requestOptions : loc) : M promise :=
  u ← get (VRef requestOptions) "url";
  let url := ToString u +:+ "/addFeatures" in
  e ← alloc ∅;
  rp ← props requestOptions;
  options ← alloc (spread {[ "params" := VRef e ]} rp);
  ps ← get (VRef options) "params";
  a ← get (VRef requestOptions) "adds";
  set ps "features" a;;
  request url (VRef options).

Definition updateFeatures (requestOptions : loc) : M promise :=
  u ← get (VRef requestOptions) "url";
  let url := ToString u +:+ "/updateFeatures" in
  e ← alloc ∅;
  rp ← props requestOptions;
  options ← alloc (spread {[ "params" := VRef e ]} rp);
  ps ← get (VRef options) "params";
  a ← get (VRef requestOptions) "updates";
  set ps "features" a;;
  request url (VRef options).

Definition deleteFeatures (requestOptions : loc) : M promise :=
  u ← get (VRef requestOptions) "url";
  let url := ToString u +:+ "/deleteFeatures" in
  e ← alloc ∅;
  rp ← props requestOptions;
  options ← alloc (spread {[ "params" := VRef e ]} rp);
  ps ← get (VRef options) "params";
  a ← get (VRef requestOptions) "deletes";
  set ps "objectIds" a;;
  request url (VRef options).

End FeatureService.

Arguments getFeature request requestOptions%_positive.
Arguments queryFeatures request requestOptions%_positive.
Arguments addFeatures request requestOptions%_positive.
Arguments updateFeatures request requestOptions%_positive.
Arguments deleteFeatures request requestOptions%_positive.

(** ** Auxiliary definitions for the statements *)

(** The locations of the first, second and third object a function
    creates. *)
Definition loc1 (h : heap) : loc := fresh_loc h.
Definition loc2 (h : heap) (o1 : object) : loc :=
  fresh_loc (<[loc1 h := o1]> h).
Definition loc3 (h : heap) (o1 o2 : object) : loc :=
  fresh_loc (<[loc2 h o1 := o2]> (<[loc1 h := o1]> h)).

(** The common body of [addFeatures], [updateFeatures] and
    [deleteFeatures]: path suffix, the field of the options that holds
    the payload, and the parameter it is sent under. *)
Definition edit (request : transport) (suffix src dst : string)
    (requestOptions : loc) : M promise :=
  u ← get (VRef requestOptions) "url";
  let url := ToString u +:+ suffix in
  e ← alloc ∅;
  rp ← props requestOptions;
  options ← alloc (spread {[ "params" := VRef e ]} rp);
  ps ← get (VRef options) "params";
  a ← get (VRef requestOptions) src;
  set ps dst a;;
  request url (VRef options).

(** The options object an edit operation builds, and the store in which
    it is built. *)
Definition edit_options (h : heap) (o : object) : object :=
  spread {[ "params" := VRef (loc1 h) ]} o.
Definition edit_store (h : heap) (o : object) : heap :=
  <[loc2 h ∅ := edit_options h o]> (<[loc1 h := ∅]> h).

(** The literal [{ httpMethod: "GET" }], the options object
    [getFeature] builds, the store in which the transport is called and
    the URL it is called with. *)
Definition GET_default : object := {[ "httpMethod" := VStr "GET" ]}.
Definition getFeature_options (o : object) : object := spread GET_default o.
Definition getFeature_store (h : heap) (o : object) : heap :=
  <[loc2 h GET_default := getFeature_options o]> (<[loc1 h := GET_default]> h).
Definition getFeature_url (o : object) : string :=
  ToString (default VUndef (o !! "url")) +:+ "/" +:+
  ToString (default VUndef (o !! "id")).

(** The defaults literal of [queryFeatures], the options object and the
    store before the two conditional writes. *)
Definition query_default (h : heap) : object :=
  <[ "httpMethod" := VStr "GET" ]> {[ "params" := VRef (loc1 h) ]}.
Definition query_options (h : heap) (o : object) : object :=
  spread (query_default h) o.
Definition query_store (h : heap) (o : object) : heap :=
  <[loc3 h ∅ (query_default h) := query_options h o]>
    (<[loc2 h ∅ := query_default h]> (<[loc1 h := ∅]> h)).

(** What the two conditional writes of [queryFeatures] do to the params
    object. *)
Definition with_defaults (po : object) : object :=
  let p1 := if truthy (default VUndef (po !! "where")) then po
            else <[ "where" := VStr "1=1" ]> po in
  if truthy (default VUndef (p1 !! "outFields")) then p1
  else <[ "outFields" := VStr "*" ]> p1.

(** The value a conditional write leaves under a key: the one found
    there if it is truthy, the default [d] otherwise. *)
Definition or_default (found : option value) (d : value) : value :=
  let w := default VUndef found in if truthy w then w else d.

(** The params mapping the transport finds behind the options it is
    handed. *)
Definition transmitted_params (h : heap) (options : loc) : option object :=
  match deref h options !! "params" with
  | Some (VRef pl) => h !! pl
  | _ => None
  end.

(** The params of a call: the mapping the caller supplied, the empty
    one when the options have no [params]. *)
Definition caller_params (h : heap) (o po : object) : Prop :=
  (o !! "params" = None ∧ po = ∅) ∨
  (∃ pl, o !! "params" = Some (VRef pl) ∧ h !! pl = Some po).

(** An edit function [f] called with a params object of the caller's:
    the options object is new, its [params] is the caller's object
    itself, the payload is written into that object under [dst], and no
    other object of the caller changes. *)
Definition shares_caller_params (f : transport → loc → M promise)
    (src dst : string) (h : heap) (ro : loc) (o : object)
    (pl : loc) (po : object) : Prop :=
  ∃ url options h',
    (∀ request, f request ro h = request url (VRef options) h') ∧
    h !! options = None ∧
    deref h' options !! "params" = Some (VRef pl) ∧
    h' !! pl = Some (<[dst := default VUndef (o !! src)]> po) ∧
    ∀ l, l ≠ pl → is_Some (h !! l) → h' !! l = h !! l.

Arguments shares_caller_params f src dst h ro%_positive o pl%_positive po.

(** An edit function [f] called without params: options and params are
    both new objects, and no object of the caller changes. *)
Definition makes_fresh_params (f : transport → loc → M promise)
    (src dst : string) (h : heap) (ro : loc) (o : object) : Prop :=
  ∃ url options pl h',
    (∀ request, f request ro h = request url (VRef options) h') ∧
    h !! options = None ∧ h !! pl = None ∧
    deref h' options !! "params" = Some (VRef pl) ∧
    h' !! pl = Some {[ dst := default VUndef (o !! src) ]} ∧
    ∀ l, is_Some (h !! l) → h' !! l = h !! l.

Arguments makes_fresh_params f src dst h ro%_positive o.

(** Modelled from the spec: the [request] collaborator is not part of
    this module.  It takes the [httpMethod] hint of the options it is
    handed and sends a body-carrying POST when they carry none. *)
Definition effective_method (options : object) : value :=
  default (VStr "POST") (options !! "httpMethod").

(** The [feature] property of a payload, if it has one. *)
Definition feature_of (h : heap) (v : value) : option value :=
  match v with
  | VRef r => deref h r !! "feature"
  | _ => None
  end.

(** How the promise [q] of [getFeature] relates to the promise [p] of
    the transport, whose payload lives in store [h]. *)
Definition resolves_with_feature (h : heap) (p q : promise) : Prop :=
  ∃ v f, p = Fulfilled v ∧ feature_of h v = Some f ∧ q = Fulfilled f.
Definition transport_fails (p : promise) : Prop :=
  ∃ e, p = Rejected e.
Definition lacks_feature (h : heap) (p : promise) : Prop :=
  ∃ v, p = Fulfilled v ∧ feature_of h v = None.

(** ** Transports and stores for the examples *)

(** A transport that never settles. *)
Definition silent : transport := λ _ _, ret Pending.

(** A transport that rejects every request with [e]. *)
Definition refuse (e : reason) : transport := λ _ _, ret (Rejected e).

(** A transport that parses the answer into a new object [resp]. *)
Definition respond (resp : object) : transport :=
  λ _ _, r ← alloc resp; ret (Fulfilled (VRef r)).

Definition layer : string := "https://svc/layer".

(** [{url: layer, id: 42}] *)
Definition o_get : object :=
  list_to_map [("url", VStr layer); ("id", VNum 42)].
(** [{url: layer, params: p_query}] with
    [p_query = {where: <empty string>, returnGeometry: false}] *)
Definition o_query : object :=
  list_to_map [("url", VStr layer); ("params", VRef 3)].
Definition p_query : object :=
  list_to_map [("where", VStr EmptyString); ("returnGeometry", VBool false)].
(** [{url: layer, adds: A, updates: A, deletes: D, params: p_edit}] with
    [p_edit = {features: X, other: "Y"}] *)
Definition o_edit : object :=
  list_to_map [("url", VStr layer); ("adds", VRef 6); ("updates", VRef 6);
               ("deletes", VRef 9); ("params", VRef 5)].
Definition p_edit : object :=
  list_to_map [("features", VRef 7); ("other", VStr "Y")].
(** The arrays [A = []], [X = []] and [D = [1, 2, 3]]. *)
Definition a_empty : object := list_to_map [("length", VNum 0)].
Definition a_123 : object :=
  list_to_map [("0", VNum 1); ("1", VNum 2); ("2", VNum 3);
               ("length", VNum 3)].
(** [{url: layer, deletes: D}] and [{url: layer, updates: A}] *)
Definition o_delete : object :=
  list_to_map [("url", VStr layer); ("deletes", VRef 9)].
Definition o_update : object :=
  list_to_map [("url", VStr layer); ("updates", VRef 6)].
(** [{url: layer, adds: A, updates: A, deletes: D, httpMethod: "GET"}] *)
Definition o_edit_GET : object :=
  list_to_map [("url", VStr layer); ("adds", VRef 6); ("updates", VRef 6);
               ("deletes", VRef 9); ("httpMethod", VStr "GET")].
(** A parsed answer [{feature: F, extra: 1}] and one without [feature]. *)
Definition r_feature : object :=
  list_to_map [("feature", VRef 6); ("extra", VNum 1)].
Definition r_error : object :=
  list_to_map [("error", VStr "not found")].

Definition store0 : heap :=
  list_to_map [(1, o_get); (2, o_query); (3, p_query); (4, o_edit);
               (5, p_edit); (6, a_empty); (7, a_empty); (8, o_delete);
               (9, a_123); (10, o_edit_GET); (11, o_update)]%positive.

(** ** Further notions for the statements *)

(** The function [f] is one call of the transport at [url]; the options
    it hands over are a new object that has every top-level property of
    the caller's options other than [params] as the caller gave it. *)
Definition passes_options_through (f : transport → loc → M promise)
    (url : string) (h : heap) (ro : loc) (o : object) : Prop :=
  ∃ options h',
    (∀ request, f request ro h = request url (VRef options) h') ∧
    h !! options = None ∧
    ∀ k, k ≠ "params" → deref h' options !! k = o !! k.
Arguments passes_options_through f url h ro%_positive o.

(** The function [f] throws a [TypeError] without reaching the
    transport, and leaves every object of the caller as it was. *)
Definition throws_before_transport (f : transport → loc → M promise)
    (h : heap) (ro : loc) : Prop :=
  ∃ h',
    (∀ request, f request ro h = (Throw TypeError, h')) ∧
    ∀ l, is_Some (h !! l) → h' !! l = h !! l.
Arguments throws_before_transport f h ro%_positive.

(** A transport that throws [e] instead of returning a promise. *)
Definition crash (e : reason) : transport := λ _ _, throw e.

(** [{url: layer, adds: A, params: undefined}],
    [{id: 7, params: p_full}] without a [url], and
    [{url: layer, params: p_full}] with
    [p_full = {where: "a=1", outFields: "*"}]. *)
Definition o_undef_params : object :=
  list_to_map [("url", VStr layer); ("adds", VRef 5); ("params", VUndef)].
Definition o_no_url : object :=
  list_to_map [("id", VNum 7); ("params", VRef 4)].
Definition o_query_full : object :=
  list_to_map [("url", VStr layer); ("params", VRef 4)].
Definition p_full : object :=
  list_to_map [("where", VStr "a=1"); ("outFields", VStr "*")].

Definition store1 : heap :=
  list_to_map [(1, o_undef_params); (2, o_no_url); (3, o_query_full);
               (4, p_full); (5, a_empty)]%positive.

(** The function [f] makes one request, and whatever the transport is,
    a promise of that request rejected with [e] comes back from [f]
    rejected with [e]. *)
Definition passes_rejection (f : transport → loc → M promise)
    (h : heap) (ro : loc) : Prop :=
  ∃ url options h',
    ∀ request e h2,
      request url (VRef options) h' = (Normal (Rejected e), h2) →
      f request ro h = (Normal (Rejected e), h2).
Arguments passes_rejection f h ro%_positive.

(** The function [f] makes one request, and whatever the transport is,
    an [e] thrown by that request is thrown by [f]. *)
Definition passes_throw (f : transport → loc → M promise)
    (h : heap) (ro : loc) : Prop :=
  ∃ url options h',
    ∀ request e h2,
      request url (VRef options) h' = (Throw e, h2) →
      f request ro h = (Throw e, h2).
Arguments passes_throw f h ro%_positive.

(** [{url: layer, updates: A, params: undefined}] *)
Definition o_update_undef : object :=
  list_to_map [("url", VStr layer); ("updates", VRef 2); ("params", VUndef)].

Definition store2 : heap :=
  list_to_map [(1, o_update_undef); (2, a_empty)]%positive.

(** ** Facts about the store *)

Lemma fresh_loc_above (h : heap) (l : loc) :
  is_Some (h !! l) → (l < fresh_loc h)%positive.
Proof.
  unfold fresh_loc.
  apply (map_fold_weak_ind
           (λ (r : loc) (m : heap), is_Some (m !! l) → (l < r)%positive)).
  - rewrite lookup_empty. intros [? ?]; discriminate.
  - intros i x m r _ IH. rewrite lookup_insert.
    case_decide as Hil.
    + subst i. lia.
    + intros Hl. specialize (IH Hl). lia.
Qed.

Lemma fresh_loc_None (h : heap) : h !! fresh_loc h = None.
Proof.
  destruct (h !! fresh_loc h) eqn:E; [|done].
  assert (fresh_loc h < fresh_loc h)%positive; [|lia].
  apply fresh_loc_above. by rewrite E.
Qed.

Lemma fresh_loc_ne_r (h : heap) (l : loc) :
  is_Some (h !! l) → l ≠ fresh_loc h.
Proof. intros [o H] ->. rewrite fresh_loc_None in H. discriminate. Qed.

Lemma fresh_loc_ne_l (h : heap) (l : loc) :
  is_Some (h !! l) → fresh_loc h ≠ l.
Proof. intros H E. by apply (fresh_loc_ne_r h l). Qed.

Lemma deref_Some (h : heap) (l : loc) (o : object) :
  h !! l = Some o → deref h l = o.
Proof. unfold deref. by intros ->. Qed.

Lemma deref_insert_eq (h : heap) (l : loc) (o : object) :
  deref (<[l := o]> h) l = o.
Proof. unfold deref. by rewrite lookup_insert_eq. Qed.

Lemma deref_insert_ne (h : heap) (l l' : loc) (o : object) :
  l ≠ l' → deref (<[l := o]> h) l' = deref h l'.
Proof. intros. unfold deref. by rewrite lookup_insert_ne. Qed.

Lemma spread_lookup_l (a b : object) k v :
  b !! k = Some v → spread a b !! k = Some v.
Proof. intros H. unfold spread. by apply lookup_union_Some_l. Qed.

Lemma spread_lookup_r (a b : object) k :
  b !! k = None → spread a b !! k = a !! k.
Proof. intros H. unfold spread. by apply lookup_union_r. Qed.

(** A location is live in a store built by insertions. *)
Ltac live :=
  repeat (rewrite lookup_insert; case_decide; [by eauto|]);
  first [ done | by eauto | congruence ].

(** Distinctness of a live location and the location of a new object. *)
Ltac loc_ne :=
  unfold loc3, loc2, loc1;
  solve [ apply fresh_loc_ne_r; live | apply fresh_loc_ne_l; live ].

Lemma loc1_fresh h : h !! loc1 h = None.
Proof. apply fresh_loc_None. Qed.

Lemma loc2_fresh h o1 : h !! loc2 h o1 = None.
Proof.
  pose proof (fresh_loc_None (<[loc1 h := o1]> h)) as F.
  fold (loc2 h o1) in F.
  rewrite lookup_insert_ne in F by loc_ne. done.
Qed.

Lemma loc3_fresh h o1 o2 : h !! loc3 h o1 o2 = None.
Proof.
  pose proof (fresh_loc_None (<[loc2 h o1 := o2]> (<[loc1 h := o1]> h))) as F.
  fold (loc3 h o1 o2) in F.
  rewrite !lookup_insert_ne in F by loc_ne. done.
Qed.

(** Reads from a store built by a few insertions over a known one. *)
Ltac store :=
  repeat first
    [ rewrite deref_insert_eq
    | rewrite deref_insert_ne by first [ loc_ne | done ]
    | match goal with
      | H : ?h !! ?l = Some ?o |- context [deref ?h ?l] =>
          rewrite (deref_Some h l o H)
      end ].

(** ** The functions up to the transport call *)

Section Runs.

Variable request : transport.

Lemma addFeatures_edit :
  addFeatures request = edit request "/addFeatures" "adds" "features".
Proof. reflexivity. Qed.

Lemma updateFeatures_edit :
  updateFeatures request = edit request "/updateFeatures" "updates" "features".
Proof. reflexivity. Qed.

Lemma deleteFeatures_edit :
  deleteFeatures request = edit request "/deleteFeatures" "deletes" "objectIds".
Proof. reflexivity. Qed.

(** The caller supplied a [params] object: the write goes into it. *)
Lemma edit_supplied suffix src dst h ro o pl po :
  h !! ro = Some o → o !! "params" = Some (VRef pl) → h !! pl = Some po →
  edit request suffix src dst ro h =
  request (ToString (default VUndef (o !! "url")) +:+ suffix)
          (VRef (loc2 h ∅))
          (<[pl := <[dst := default VUndef (o !! src)]> po]> (edit_store h o)).
Proof.
  intros Hro Hp Hpl.
  unfold edit, mbind, M_bind, bind, get, set, alloc, props.
  fold (loc1 h). fold (loc2 h ∅). store.
  rewrite (spread_lookup_l _ _ _ _ Hp). simpl. store.
  reflexivity.
Qed.

(** The caller supplied none: the write goes into the new empty one. *)
Lemma edit_absent suffix src dst h ro o :
  h !! ro = Some o → o !! "params" = None →
  edit request suffix src dst ro h =
  request (ToString (default VUndef (o !! "url")) +:+ suffix)
          (VRef (loc2 h ∅))
          (<[loc1 h := <[dst := default VUndef (o !! src)]> ∅]>
             (edit_store h o)).
Proof.
  intros Hro Hp.
  unfold edit, mbind, M_bind, bind, get, set, alloc, props.
  fold (loc1 h). fold (loc2 h ∅). store.
  rewrite (spread_lookup_r _ _ _ Hp), lookup_singleton_eq. simpl. store.
  reflexivity.
Qed.

(** [params: undefined] or [params: null] written out by the caller
    replaces the default, and the write through it throws before the
    transport is reached. *)
Lemma edit_nullish suffix src dst h ro o v :
  h !! ro = Some o → o !! "params" = Some v → v = VUndef ∨ v = VNull →
  edit request suffix src dst ro h = (Throw TypeError, edit_store h o).
Proof.
  intros Hro Hp Hv.
  unfold edit, mbind, M_bind, bind, get, set, alloc, props.
  fold (loc1 h). fold (loc2 h ∅). store.
  rewrite (spread_lookup_l _ _ _ _ Hp).
  by destruct Hv as [-> | ->].
Qed.

Lemma getFeature_run h ro o :
  h !! ro = Some o →
  getFeature request ro h =
  (p ← request (getFeature_url o) (VRef (loc2 h GET_default));
   then_ p (λ response, get response "feature")) (getFeature_store h o).
Proof.
  intros Hro.
  unfold getFeature, mbind, M_bind, bind, get, alloc, props.
  fold GET_default. fold (loc1 h). fold (loc2 h GET_default). store.
  reflexivity.
Qed.

Lemma with_defaults_other (po : object) k :
  k ≠ "where" → k ≠ "outFields" → with_defaults po !! k = po !! k.
Proof.
  intros H1 H2. unfold with_defaults.
  repeat case_match; rewrite ?lookup_insert_ne by done; done.
Qed.

Lemma queryFeatures_core h ro o pl po :
  h !! ro = Some o →
  query_options h o !! "params" = Some (VRef pl) →
  query_store h o !! pl = Some po →
  pl ≠ loc3 h ∅ (query_default h) →
  queryFeatures request ro h =
  request (ToString (default VUndef (o !! "url")) +:+ "/query")
          (VRef (loc3 h ∅ (query_default h)))
          (<[pl := with_defaults po]> (query_store h o)).
Proof.
  intros Hro Hps Hlive Hfresh.
  assert (Hro' : query_store h o !! ro = Some o)
    by (unfold query_store; by rewrite !lookup_insert_ne by loc_ne).
  assert (Hurl : ∀ po' : object,
            po' !! "url" = po !! "url" →
            deref (<[pl := po']> (query_store h o)) ro !! "url" = o !! "url").
  { intros po' Hk. destruct (decide (pl = ro)) as [-> | Hne].
    - rewrite deref_insert_eq. rewrite Hk. congruence.
    - rewrite deref_insert_ne by done. by rewrite (deref_Some _ _ _ Hro'). }
  assert (Hopts : ∀ po' : object,
            deref (<[pl := po']> (query_store h o))
                  (loc3 h ∅ (query_default h)) = query_options h o).
  { intros po'. rewrite deref_insert_ne by done.
    unfold query_store. by store. }
  unfold queryFeatures, mbind, M_bind, bind, get, set, alloc, props, when_.
  fold (loc1 h). fold (loc2 h ∅). fold (query_default h).
  fold (loc3 h ∅ (query_default h)). store.
  fold (query_options h o). fold (query_store h o).
  rewrite Hps. simpl. rewrite (deref_Some _ _ _ Hlive).
  unfold with_defaults.
  rewrite <- (insert_id _ _ _ Hlive).
  destruct (truthy (default VUndef (po !! "where"))) eqn:Ew; simpl;
    repeat first [ rewrite insert_insert_eq | rewrite Hopts | rewrite Hps
                 | rewrite deref_insert_eq | progress simpl ];
    rewrite ?(lookup_insert_ne po "where" "outFields") by done;
    destruct (truthy (default VUndef (po !! "outFields"))) eqn:Ef; simpl;
    repeat first [ rewrite insert_insert_eq | rewrite Hopts | rewrite Hps
                 | rewrite deref_insert_eq | progress simpl ];
    (rewrite Hurl by (by rewrite ?lookup_insert_ne)); done.
Qed.

Lemma queryFeatures_supplied h ro o pl po :
  h !! ro = Some o → o !! "params" = Some (VRef pl) → h !! pl = Some po →
  queryFeatures request ro h =
  request (ToString (default VUndef (o !! "url")) +:+ "/query")
          (VRef (loc3 h ∅ (query_default h)))
          (<[pl := with_defaults po]> (query_store h o)).
Proof.
  intros Hro Hp Hpl. apply queryFeatures_core; [done| | |loc_ne].
  - by apply spread_lookup_l.
  - unfold query_store. by rewrite !lookup_insert_ne by loc_ne.
Qed.

Lemma queryFeatures_absent h ro o :
  h !! ro = Some o → o !! "params" = None →
  queryFeatures request ro h =
  request (ToString (default VUndef (o !! "url")) +:+ "/query")
          (VRef (loc3 h ∅ (query_default h)))
          (<[loc1 h := with_defaults ∅]> (query_store h o)).
Proof.
  intros Hro Hp. apply queryFeatures_core; [done| | |].
  - unfold query_options. rewrite (spread_lookup_r _ _ _ Hp).
    unfold query_default. by rewrite lookup_insert_ne, lookup_singleton_eq.
  - unfold query_store.
    by rewrite !lookup_insert_ne, lookup_insert_eq by loc_ne.
  - loc_ne.
Qed.

(** [params: undefined] or [params: null] written out by the caller
    replaces the default, and reading [where] from it throws before the
    transport is reached. *)
Lemma queryFeatures_nullish h ro o v :
  h !! ro = Some o → o !! "params" = Some v → v = VUndef ∨ v = VNull →
  queryFeatures request ro h = (Throw TypeError, query_store h o).
Proof.
  intros Hro Hp Hv.
  unfold queryFeatures, mbind, M_bind, bind, get, set, alloc, props, when_.
  fold (loc1 h). fold (loc2 h ∅). fold (query_default h).
  fold (loc3 h ∅ (query_default h)). store.
  fold (query_options h o). fold (query_store h o).
  unfold query_options at 1. rewrite (spread_lookup_l _ _ _ _ Hp).
  by destruct Hv as [-> | ->].
Qed.

End Runs.

(** ** What the transport is handed *)

Lemma transmitted_insert (hs : heap) (options P : loc) (oo X : object) :
  hs !! options = Some oo → oo !! "params" = Some (VRef P) → P ≠ options →
  transmitted_params (<[P := X]> hs) options = Some X.
Proof.
  intros Ho Hp Hne. unfold transmitted_params.
  rewrite deref_insert_ne by done. rewrite (deref_Some _ _ _ Ho), Hp.
  apply lookup_insert_eq.
Qed.

Lemma edit_store_options h o : edit_store h o !! loc2 h ∅ = Some (edit_options h o).
Proof. unfold edit_store. apply lookup_insert_eq. Qed.

Lemma edit_store_frame h o l :
  is_Some (h !! l) → edit_store h o !! l = h !! l.
Proof.
  intros Hl. unfold edit_store. by rewrite !lookup_insert_ne by loc_ne.
Qed.

Lemma edit_options_params_supplied h o pl :
  o !! "params" = Some (VRef pl) → edit_options h o !! "params" = Some (VRef pl).
Proof. apply spread_lookup_l. Qed.

Lemma edit_options_params_absent h o :
  o !! "params" = None → edit_options h o !! "params" = Some (VRef (loc1 h)).
Proof.
  intros Hp. unfold edit_options.
  by rewrite (spread_lookup_r _ _ _ Hp), lookup_singleton_eq.
Qed.

Lemma edit_options_other h o k :
  k ≠ "params" → edit_options h o !! k = o !! k.
Proof.
  intros Hk. unfold edit_options, spread.
  destruct (o !! k) eqn:E.
  - by apply lookup_union_Some_l.
  - apply lookup_union_None. split; [done|]. by apply lookup_singleton_ne.
Qed.

(** Every edit operation is one call of the transport: at the suffixed
    URL, with a new options object whose [params] hold the payload
    under [dst] besides what the caller's params held. *)
Lemma edit_call suffix src dst h ro o po :
  h !! ro = Some o → caller_params h o po →
  ∃ P,
    (∀ request,
       edit request suffix src dst ro h =
       request (ToString (default VUndef (o !! "url")) +:+ suffix)
               (VRef (loc2 h ∅))
               (<[P := <[dst := default VUndef (o !! src)]> po]>
                  (edit_store h o))) ∧
    P ≠ loc2 h ∅ ∧
    edit_options h o !! "params" = Some (VRef P).
Proof.
  intros Hro [[Hp ->] | (pl & Hp & Hpl)].
  - exists (loc1 h). split; [|split].
    + intros request. by apply edit_absent.
    + loc_ne.
    + by apply edit_options_params_absent.
  - exists pl. split; [|split].
    + intros request. by apply edit_supplied.
    + loc_ne.
    + by apply edit_options_params_supplied.
Qed.

Lemma edit_transmitted suffix src dst h ro o po :
  h !! ro = Some o → caller_params h o po →
  ∃ options h',
    (∀ request,
       edit request suffix src dst ro h =
       request (ToString (default VUndef (o !! "url")) +:+ suffix)
               (VRef options) h') ∧
    h !! options = None ∧
    (∀ k, k ≠ "params" → deref h' options !! k = o !! k) ∧
    transmitted_params h' options =
      Some (<[dst := default VUndef (o !! src)]> po).
Proof.
  intros Hro Hcp.
  destruct (edit_call suffix src dst h ro o po Hro Hcp) as (P & Hrun & Hne & Hps).
  eexists _, _. split; [exact Hrun|]. split; [apply loc2_fresh|]. split.
  - intros k Hk. rewrite deref_insert_ne by done.
    rewrite (deref_Some _ _ _ (edit_store_options h o)).
    by apply edit_options_other.
  - eapply transmitted_insert; [apply edit_store_options|done|done].
Qed.

(** * Properties of the five functions *)

(** C1. [addFeatures({url, adds, params})] with [params] a mapping:
    the options handed to the transport have [params.features] equal to
    [adds], whatever the caller's [params.features] was, and every other
    key of the caller's params with its original value. *)
Theorem addFeatures_features_from_adds h ro o pl po a :
  h !! ro = Some o → o !! "params" = Some (VRef pl) → h !! pl = Some po →
  o !! "adds" = Some a →
  ∃ url options h',
    (∀ request, addFeatures request ro h = request url (VRef options) h') ∧
    ∃ tp, transmitted_params h' options = Some tp ∧
          tp !! "features" = Some a ∧
          ∀ k, k ≠ "features" → tp !! k = po !! k.
Proof.
  intros Hro Hp Hpl Ha.
  destruct (edit_transmitted "/addFeatures" "adds" "features" h ro o po Hro)
    as (options & h' & Hrun & _ & _ & Htp).
  { right. eauto. }
  exists (ToString (default VUndef (o !! "url")) +:+ "/addFeatures"), options, h'.
  split; [exact Hrun|].
  eexists. split; [exact Htp|]. rewrite Ha. simpl. split.
  - apply lookup_insert_eq.
  - intros k Hk. by apply lookup_insert_ne.
Qed.

Lemma addFeatures_features_from_adds_witness :
  ∃ url options h',
    (∀ request, addFeatures request 4 store0 = request url (VRef options) h') ∧
    ∃ tp, transmitted_params h' options = Some tp ∧
          tp !! "features" = Some (VRef 6) ∧
          ∀ k, k ≠ "features" → tp !! k = p_edit !! k.
Proof.
  apply (addFeatures_features_from_adds
           store0 4%positive o_edit 5%positive p_edit (VRef 6));
    reflexivity.
Defined.

Lemma edit_shares suffix src dst h ro o pl po :
  h !! ro = Some o → o !! "params" = Some (VRef pl) → h !! pl = Some po →
  shares_caller_params (λ request, edit request suffix src dst)
                       src dst h ro o pl po.
Proof.
  intros Hro Hp Hpl.
  exists (ToString (default VUndef (o !! "url")) +:+ suffix), (loc2 h ∅).
  eexists. split; [intros request; by apply edit_supplied|].
  split; [apply loc2_fresh|]. split; [|split].
  - rewrite deref_insert_ne by loc_ne.
    rewrite (deref_Some _ _ _ (edit_store_options h o)).
    by apply edit_options_params_supplied.
  - apply lookup_insert_eq.
  - intros l Hl Hlive. rewrite lookup_insert_ne by done.
    by apply edit_store_frame.
Qed.

Lemma edit_fresh suffix src dst h ro o :
  h !! ro = Some o → o !! "params" = None →
  makes_fresh_params (λ request, edit request suffix src dst) src dst h ro o.
Proof.
  intros Hro Hp.
  exists (ToString (default VUndef (o !! "url")) +:+ suffix), (loc2 h ∅), (loc1 h).
  eexists. split; [intros request; by apply edit_absent|].
  split; [apply loc2_fresh|]. split; [apply loc1_fresh|]. split; [|split].
  - rewrite deref_insert_ne by loc_ne.
    rewrite (deref_Some _ _ _ (edit_store_options h o)).
    by apply edit_options_params_absent.
  - by rewrite lookup_insert_eq, insert_empty.
  - intros l Hlive. rewrite lookup_insert_ne by loc_ne.
    by apply edit_store_frame.
Qed.

(** C2, as the code has it.  The three edit functions copy the caller's
    top-level options into a new object, but not the nested params: a
    params object supplied by the caller is shared with the options
    handed to the transport and receives the reserved key ([features]
    or [objectIds]); only without caller params is the key written into
    a new, empty mapping. *)
Theorem edit_params_shared_not_copied h ro o :
  h !! ro = Some o →
  (∀ pl po, o !! "params" = Some (VRef pl) → h !! pl = Some po →
     shares_caller_params addFeatures "adds" "features" h ro o pl po ∧
     shares_caller_params updateFeatures "updates" "features" h ro o pl po ∧
     shares_caller_params deleteFeatures "deletes" "objectIds" h ro o pl po) ∧
  (o !! "params" = None →
     makes_fresh_params addFeatures "adds" "features" h ro o ∧
     makes_fresh_params updateFeatures "updates" "features" h ro o ∧
     makes_fresh_params deleteFeatures "deletes" "objectIds" h ro o).
Proof.
  intros Hro. split.
  - intros pl po Hp Hpl. split; [|split].
    + exact (edit_shares "/addFeatures" "adds" "features" h ro o pl po Hro Hp Hpl).
    + exact (edit_shares "/updateFeatures" "updates" "features"
                         h ro o pl po Hro Hp Hpl).
    + exact (edit_shares "/deleteFeatures" "deletes" "objectIds"
                         h ro o pl po Hro Hp Hpl).
  - intros Hp. split; [|split].
    + exact (edit_fresh "/addFeatures" "adds" "features" h ro o Hro Hp).
    + exact (edit_fresh "/updateFeatures" "updates" "features" h ro o Hro Hp).
    + exact (edit_fresh "/deleteFeatures" "deletes" "objectIds" h ro o Hro Hp).
Qed.

Lemma edit_params_shared_not_copied_witness :
  (∀ pl po, o_edit !! "params" = Some (VRef pl) → store0 !! pl = Some po →
     shares_caller_params addFeatures "adds" "features"
                          store0 4 o_edit pl po ∧
     shares_caller_params updateFeatures "updates" "features"
                          store0 4 o_edit pl po ∧
     shares_caller_params deleteFeatures "deletes" "objectIds"
                          store0 4 o_edit pl po) ∧
  (o_edit !! "params" = None →
     makes_fresh_params addFeatures "adds" "features" store0 4 o_edit ∧
     makes_fresh_params updateFeatures "updates" "features" store0 4 o_edit ∧
     makes_fresh_params deleteFeatures "deletes" "objectIds" store0 4 o_edit).
Proof.
  apply (edit_params_shared_not_copied store0 4%positive o_edit). reflexivity.
Defined.

(** C2, as stated, fails: after [addFeatures] with the params object at
    location 5, that object is no longer what the caller passed in. *)
Lemma addFeatures_params_unchanged_counterexample :
  ¬ ((addFeatures silent 4 store0).2 !! 5%positive = store0 !! 5%positive).
Proof.
  intros E. apply (f_equal (λ m : option object, m ≫= (.!! "features"))) in E.
  vm_compute in E. discriminate.
Qed.

(** C3 at the failing input: with [httpMethod: "GET"] in the caller's
    options, each edit function hands the transport options that ask
    for GET. *)
Theorem edit_GET_passes_through :
  (∃ url options h',
     (∀ request, addFeatures request 10 store0 = request url (VRef options) h') ∧
     deref h' options !! "httpMethod" = Some (VStr "GET") ∧
     effective_method (deref h' options) = VStr "GET") ∧
  (∃ url options h',
     (∀ request, updateFeatures request 10 store0 = request url (VRef options) h') ∧
     deref h' options !! "httpMethod" = Some (VStr "GET") ∧
     effective_method (deref h' options) = VStr "GET") ∧
  (∃ url options h',
     (∀ request, deleteFeatures request 10 store0 = request url (VRef options) h') ∧
     deref h' options !! "httpMethod" = Some (VStr "GET") ∧
     effective_method (deref h' options) = VStr "GET").
Proof.
  assert (Hro : store0 !! 10%positive = Some o_edit_GET) by reflexivity.
  assert (Hcp : caller_params store0 o_edit_GET ∅) by (by left).
  repeat split.
  - destruct (edit_transmitted "/addFeatures" "adds" "features" _ _ _ _ Hro Hcp)
      as (options & h' & Hrun & _ & Hk & _).
    eexists _, options, h'. split; [exact Hrun|].
    unfold effective_method. by rewrite Hk.
  - destruct (edit_transmitted "/updateFeatures" "updates" "features" _ _ _ _ Hro Hcp)
      as (options & h' & Hrun & _ & Hk & _).
    eexists _, options, h'. split; [exact Hrun|].
    unfold effective_method. by rewrite Hk.
  - destruct (edit_transmitted "/deleteFeatures" "deletes" "objectIds" _ _ _ _ Hro Hcp)
      as (options & h' & Hrun & _ & Hk & _).
    eexists _, options, h'. split; [exact Hrun|].
    unfold effective_method. by rewrite Hk.
Qed.

(** C6. [deleteFeatures({url: U, deletes: D})]: one request to
    [U + "/deleteFeatures"], POST by the transport's default since the
    options carry no method, with params [{objectIds: D}]; no object of
    the caller (the array [D] among them) is changed, and what the
    transport returns is what the call returns. *)
Theorem deleteFeatures_posts_objectIds h ro o U d :
  h !! ro = Some o → o !! "url" = Some (VStr U) →
  o !! "deletes" = Some d → o !! "params" = None →
  o !! "httpMethod" = None →
  ∃ options h',
    (∀ request,
       deleteFeatures request ro h =
       request (U +:+ "/deleteFeatures") (VRef options) h') ∧
    effective_method (deref h' options) = VStr "POST" ∧
    transmitted_params h' options = Some {[ "objectIds" := d ]} ∧
    ∀ l, is_Some (h !! l) → h' !! l = h !! l.
Proof.
  intros Hro Hu Hd Hp Hm.
  exists (loc2 h ∅), (<[loc1 h := <[ "objectIds" := d ]> ∅]> (edit_store h o)).
  split; [|split; [|split]].
  - intros request.
    pose proof (edit_absent request "/deleteFeatures" "deletes" "objectIds"
                            h ro o Hro Hp) as Hrun.
    rewrite Hu, Hd in Hrun. exact Hrun.
  - rewrite deref_insert_ne by loc_ne.
    rewrite (deref_Some _ _ _ (edit_store_options h o)).
    unfold effective_method. by rewrite edit_options_other, Hm.
  - rewrite <- insert_empty.
    eapply transmitted_insert;
      [apply edit_store_options|by apply edit_options_params_absent|loc_ne].
  - intros l Hl. rewrite lookup_insert_ne by loc_ne.
    by apply edit_store_frame.
Qed.

Lemma deleteFeatures_posts_objectIds_witness :
  ∃ options h',
    (∀ request,
       deleteFeatures request 8 store0 =
       request (layer +:+ "/deleteFeatures") (VRef options) h') ∧
    effective_method (deref h' options) = VStr "POST" ∧
    transmitted_params h' options = Some {[ "objectIds" := VRef 9 ]} ∧
    ∀ l, is_Some (store0 !! l) → h' !! l = store0 !! l.
Proof.
  apply (deleteFeatures_posts_objectIds store0 8%positive o_delete layer (VRef 9));
    reflexivity.
Defined.

(** C7, as the code has it, for params absent or a mapping.
    [updateFeatures({url, updates, params?})]: one request to
    [url + "/updateFeatures"] whose params are the caller's (none: the
    empty mapping) with [features] set to [updates]; what the transport
    returns is what the call returns. *)
Theorem updateFeatures_posts_features h ro o U a po :
  h !! ro = Some o → o !! "url" = Some (VStr U) →
  o !! "updates" = Some a → caller_params h o po →
  ∃ options h',
    (∀ request,
       updateFeatures request ro h =
       request (U +:+ "/updateFeatures") (VRef options) h') ∧
    ∃ tp, transmitted_params h' options = Some tp ∧
          tp !! "features" = Some a ∧
          ∀ k, k ≠ "features" → tp !! k = po !! k.
Proof.
  intros Hro Hu Ha Hcp.
  destruct (edit_transmitted "/updateFeatures" "updates" "features"
                             h ro o po Hro Hcp)
    as (options & h' & Hrun & _ & _ & Htp).
  rewrite Hu in Hrun. rewrite Ha in Htp. simpl in Hrun, Htp.
  exists options, h'. split; [exact Hrun|].
  eexists. split; [exact Htp|]. split.
  - apply lookup_insert_eq.
  - intros k Hk. by apply lookup_insert_ne.
Qed.

Lemma updateFeatures_posts_features_witness :
  ∃ options h',
    (∀ request,
       updateFeatures request 11 store0 =
       request (layer +:+ "/updateFeatures") (VRef options) h') ∧
    ∃ tp, transmitted_params h' options = Some tp ∧
          tp !! "features" = Some (VRef 6) ∧
          ∀ k, k ≠ "features" → tp !! k = (∅ : object) !! k.
Proof.
  apply (updateFeatures_posts_features
           store0 11%positive o_update layer (VRef 6) ∅);
    [reflexivity | reflexivity | reflexivity | left; split; reflexivity].
Defined.

(** C7, as stated for every call, fails: with [params: undefined]
    written out in the options, [updateFeatures] makes no request to
    [url + "/updateFeatures"]; it throws. *)
Lemma updateFeatures_params_undefined_counterexample :
  (∀ request, (updateFeatures request 1 store2).1 = Throw TypeError) ∧
  ¬ (∃ options h', ∀ request,
       updateFeatures request 1 store2 =
       request (layer +:+ "/updateFeatures") (VRef options) h').
Proof.
  split; [reflexivity|].
  intros (options & h' & H). specialize (H silent).
  apply (f_equal fst) in H. vm_compute in H. discriminate.
Qed.

(** ** [queryFeatures] *)

Lemma with_defaults_where (po : object) :
  with_defaults po !! "where" = Some (or_default (po !! "where") (VStr "1=1")).
Proof.
  unfold with_defaults, or_default.
  destruct (po !! "where") as [w|] eqn:Ew; simpl;
    repeat case_match;
    rewrite ?lookup_insert_ne by done; rewrite ?lookup_insert_eq; done.
Qed.

Lemma with_defaults_outFields (po : object) :
  with_defaults po !! "outFields" =
  Some (or_default (po !! "outFields") (VStr "*")).
Proof.
  unfold with_defaults, or_default.
  assert (Hk : ∀ x : value,
            (<[ "where" := x ]> po : object) !! "outFields" = po !! "outFields")
    by (intros x; by apply lookup_insert_ne).
  destruct (truthy (default VUndef (po !! "where"))); rewrite ?Hk;
    destruct (po !! "outFields") as [f|] eqn:Ef; simpl;
    repeat case_match; rewrite ?lookup_insert_eq, ?Hk; try done;
    by rewrite Ef.
Qed.

Lemma query_store_options h o :
  query_store h o !! loc3 h ∅ (query_default h) = Some (query_options h o).
Proof. unfold query_store. apply lookup_insert_eq. Qed.

Lemma query_store_frame h o l :
  is_Some (h !! l) → query_store h o !! l = h !! l.
Proof.
  intros Hl. unfold query_store. by rewrite !lookup_insert_ne by loc_ne.
Qed.

(** [queryFeatures] is one call of the transport, at [url + "/query"],
    with a new options object whose [params] are the caller's (none: a
    new empty mapping) after the two conditional writes. *)
Lemma query_call h ro o po :
  h !! ro = Some o → caller_params h o po →
  ∃ P,
    (∀ request,
       queryFeatures request ro h =
       request (ToString (default VUndef (o !! "url")) +:+ "/query")
               (VRef (loc3 h ∅ (query_default h)))
               (<[P := with_defaults po]> (query_store h o))) ∧
    P ≠ loc3 h ∅ (query_default h) ∧
    query_options h o !! "params" = Some (VRef P).
Proof.
  intros Hro [[Hp ->] | (pl & Hp & Hpl)].
  - exists (loc1 h). split; [|split].
    + intros request. by apply queryFeatures_absent.
    + loc_ne.
    + unfold query_options. rewrite (spread_lookup_r _ _ _ Hp).
      unfold query_default. by rewrite lookup_insert_ne, lookup_singleton_eq.
  - exists pl. split; [|split].
    + intros request. by apply queryFeatures_supplied.
    + loc_ne.
    + by apply spread_lookup_l.
Qed.

(** C4, as the code has it, for params absent or a mapping.  The
    transmitted params hold under [where]
    and [outFields] the caller's value when it is truthy, and the
    default (["1=1"], ["*"]) when it is absent or falsy; every other
    key is the caller's. *)
Theorem queryFeatures_defaults_unless_truthy h ro o po :
  h !! ro = Some o → caller_params h o po →
  ∃ url options h',
    (∀ request, queryFeatures request ro h = request url (VRef options) h') ∧
    ∃ tp, transmitted_params h' options = Some tp ∧
          tp !! "where" = Some (or_default (po !! "where") (VStr "1=1")) ∧
          tp !! "outFields" = Some (or_default (po !! "outFields") (VStr "*")) ∧
          ∀ k, k ≠ "where" → k ≠ "outFields" → tp !! k = po !! k.
Proof.
  intros Hro Hcp.
  destruct (query_call h ro o po Hro Hcp) as (P & Hrun & Hne & Hps).
  eexists _, _, _. split; [exact Hrun|].
  exists (with_defaults po). split; [|split; [|split]].
  - eapply transmitted_insert; [apply query_store_options|done|done].
  - apply with_defaults_where.
  - apply with_defaults_outFields.
  - intros k. apply with_defaults_other.
Qed.

Lemma queryFeatures_defaults_unless_truthy_witness :
  ∃ url options h',
    (∀ request, queryFeatures request 2 store0 = request url (VRef options) h') ∧
    ∃ tp, transmitted_params h' options = Some tp ∧
          tp !! "where" = Some (or_default (p_query !! "where") (VStr "1=1")) ∧
          tp !! "outFields" =
            Some (or_default (p_query !! "outFields") (VStr "*")) ∧
          ∀ k, k ≠ "where" → k ≠ "outFields" → tp !! k = p_query !! k.
Proof.
  apply (queryFeatures_defaults_unless_truthy store0 2%positive o_query p_query);
    [reflexivity | right; exists 3%positive; split; reflexivity].
Defined.

(** C4, as stated, fails: the caller of this query supplies the empty
    string as [where], and the transport is sent another [where]. *)
Lemma queryFeatures_where_preserved_counterexample :
  ∃ url options h',
    (∀ request, queryFeatures request 2 store0 = request url (VRef options) h') ∧
    (store0 !! 3%positive ≫= (.!! "where")) = Some (VStr EmptyString) ∧
    (transmitted_params h' options ≫= (.!! "where")) ≠
      (store0 !! 3%positive ≫= (.!! "where")).
Proof.
  eexists _, _, _. split; [|split].
  - intros request.
    apply (queryFeatures_supplied request store0 2%positive o_query
                                  3%positive p_query); reflexivity.
  - reflexivity.
  - vm_compute. discriminate.
Qed.

(** C10.  Called with a params object of the caller's whose [where] or
    [outFields] is absent or falsy, [queryFeatures] hands the transport
    options whose [params] is that very object, and has written the
    defaults into it: the caller's object is not what it was. *)
Theorem queryFeatures_mutates_caller_params h ro o pl po :
  h !! ro = Some o → o !! "params" = Some (VRef pl) → h !! pl = Some po →
  truthy (default VUndef (po !! "where")) = false ∨
  truthy (default VUndef (po !! "outFields")) = false →
  ∃ url options h',
    (∀ request, queryFeatures request ro h = request url (VRef options) h') ∧
    deref h' options !! "params" = Some (VRef pl) ∧
    h' !! pl = Some (with_defaults po) ∧
    h' !! pl ≠ h !! pl ∧
    (truthy (default VUndef (po !! "where")) = false →
     with_defaults po !! "where" = Some (VStr "1=1")) ∧
    (truthy (default VUndef (po !! "outFields")) = false →
     with_defaults po !! "outFields" = Some (VStr "*")).
Proof.
  intros Hro Hp Hpl Hfalsy.
  assert (Hw : truthy (default VUndef (po !! "where")) = false →
               with_defaults po !! "where" = Some (VStr "1=1")).
  { intros E. rewrite with_defaults_where. unfold or_default. simpl.
    by rewrite E. }
  assert (Hf : truthy (default VUndef (po !! "outFields")) = false →
               with_defaults po !! "outFields" = Some (VStr "*")).
  { intros E. rewrite with_defaults_outFields. unfold or_default. simpl.
    by rewrite E. }
  eexists _, (loc3 h ∅ (query_default h)), _.
  split; [intros request; by apply queryFeatures_supplied|].
  split.
  { rewrite deref_insert_ne by loc_ne.
    rewrite (deref_Some _ _ _ (query_store_options h o)).
    by apply spread_lookup_l. }
  split; [apply lookup_insert_eq|].
  split; [|split; [exact Hw | exact Hf]].
  rewrite lookup_insert_eq, Hpl. intros [= E].
  destruct Hfalsy as [F | F].
  - specialize (Hw F). rewrite E in Hw. rewrite Hw in F. discriminate.
  - specialize (Hf F). rewrite E in Hf. rewrite Hf in F. discriminate.
Qed.

Lemma queryFeatures_mutates_caller_params_witness :
  ∃ url options h',
    (∀ request, queryFeatures request 2 store0 = request url (VRef options) h') ∧
    deref h' options !! "params" = Some (VRef 3) ∧
    h' !! 3%positive = Some (with_defaults p_query) ∧
    h' !! 3%positive ≠ store0 !! 3%positive ∧
    (truthy (default VUndef (p_query !! "where")) = false →
     with_defaults p_query !! "where" = Some (VStr "1=1")) ∧
    (truthy (default VUndef (p_query !! "outFields")) = false →
     with_defaults p_query !! "outFields" = Some (VStr "*")).
Proof.
  apply (queryFeatures_mutates_caller_params
           store0 2%positive o_query 3%positive p_query);
    [reflexivity | reflexivity | reflexivity | left; reflexivity].
Defined.

(** ** [getFeature] *)

Lemma getFeature_store_options h o :
  getFeature_store h o !! loc2 h GET_default = Some (getFeature_options o).
Proof. unfold getFeature_store. apply lookup_insert_eq. Qed.

Lemma getFeature_options_method (o : object) :
  getFeature_options o !! "httpMethod" =
  Some (default (VStr "GET") (o !! "httpMethod")).
Proof.
  unfold getFeature_options. destruct (o !! "httpMethod") as [m|] eqn:E.
  - by apply spread_lookup_l.
  - rewrite (spread_lookup_r _ _ _ E). apply lookup_singleton_eq.
Qed.

(** The callback of [getFeature] on a payload that is neither
    [undefined] nor [null]. *)
Lemma unwrap_feature (h : heap) (v : value) :
  v ≠ VUndef → v ≠ VNull →
  get v "feature" h = (Normal (default VUndef (feature_of h v)), h).
Proof. intros H1 H2. by destruct v. Qed.

(** On [undefined] or [null] the callback throws, which rejects the
    promise [getFeature] returns. *)
Lemma getFeature_nullish_payload request h ro o v h2 :
  h !! ro = Some o →
  request (getFeature_url o) (VRef (loc2 h GET_default)) (getFeature_store h o)
  = (Normal (Fulfilled v), h2) →
  v = VUndef ∨ v = VNull →
  getFeature request ro h = (Normal (Rejected TypeError), h2).
Proof.
  intros Hro Hreq Hv. rewrite (getFeature_run request h ro o Hro).
  unfold mbind, M_bind, bind. rewrite Hreq.
  by destruct Hv as [-> | ->].
Qed.

(** C5.  [getFeature({url, id, ...})] calls the transport once, at
    [url + "/" + id], with a new options object whose method is GET
    unless the caller's options name one, and resolves with the
    [feature] property of the parsed answer and nothing else of it. *)
Theorem getFeature_GET_url_and_feature h ro o u n :
  h !! ro = Some o → o !! "url" = Some (VStr u) → o !! "id" = Some (VNum n) →
  safe_integer n →
  ∃ options h',
    h !! options = None ∧
    deref h' options !! "httpMethod" =
      Some (default (VStr "GET") (o !! "httpMethod")) ∧
    (o !! "httpMethod" = None →
     effective_method (deref h' options) = VStr "GET") ∧
    (∀ request,
       getFeature request ro h =
       (p ← request (u +:+ "/" +:+ pretty n) (VRef options);
        then_ p (λ response, get response "feature")) h') ∧
    (∀ request r resp f h2,
       request (u +:+ "/" +:+ pretty n) (VRef options) h'
       = (Normal (Fulfilled (VRef r)), h2) →
       h2 !! r = Some resp → resp !! "feature" = Some f →
       getFeature request ro h = (Normal (Fulfilled f), h2)).
Proof.
  intros Hro Hu Hi _.
  assert (Hurl : getFeature_url o = u +:+ "/" +:+ pretty n)
    by (unfold getFeature_url; by rewrite Hu, Hi).
  exists (loc2 h GET_default), (getFeature_store h o).
  rewrite (deref_Some _ _ _ (getFeature_store_options h o)).
  split; [apply loc2_fresh|].
  split; [apply getFeature_options_method|].
  split.
  { intros Hm. unfold effective_method.
    by rewrite getFeature_options_method, Hm. }
  split.
  - intros request. rewrite <- Hurl. by apply getFeature_run.
  - intros request r resp f h2 Hreq Hr Hf.
    rewrite (getFeature_run request h ro o Hro), Hurl.
    unfold mbind, M_bind, bind. rewrite Hreq. simpl.
    by rewrite (deref_Some _ _ _ Hr), Hf.
Qed.

Lemma getFeature_GET_url_and_feature_witness :
  ∃ options h',
    store0 !! options = None ∧
    deref h' options !! "httpMethod" =
      Some (default (VStr "GET") (o_get !! "httpMethod")) ∧
    (o_get !! "httpMethod" = None →
     effective_method (deref h' options) = VStr "GET") ∧
    (∀ request,
       getFeature request 1 store0 =
       (p ← request ("https://svc/layer" +:+ "/" +:+ pretty 42%Z) (VRef options);
        then_ p (λ response, get response "feature")) h') ∧
    (∀ request r resp f h2,
       request ("https://svc/layer" +:+ "/" +:+ pretty 42%Z) (VRef options) h'
       = (Normal (Fulfilled (VRef r)), h2) →
       h2 !! r = Some resp → resp !! "feature" = Some f →
       getFeature request 1 store0 = (Normal (Fulfilled f), h2)).
Proof.
  apply (getFeature_GET_url_and_feature store0 1%positive o_get layer 42%Z);
    [reflexivity | reflexivity | reflexivity | unfold safe_integer, MAX_SAFE_INTEGER; lia].
Defined.

(** The example of the specification, run: the URL is
    ["https://svc/layer/42"] and the answer [{feature: F, extra: 1}]
    resolves to [F]. *)
Example getFeature_layer_42 :
  getFeature_url o_get = "https://svc/layer/42" ∧
  (getFeature (respond r_feature) 1 store0).1 = Normal (Fulfilled (VRef 6)).
Proof. split; reflexivity. Qed.

(** C9, as the code has it.  [getFeature] makes one request, and
    whatever the transport is, once the promise of that request has
    settled, [getFeature] does not resolve with a feature exactly when
    the transport rejected or the payload has no [feature] property.
    A rejection is passed on as it is.  A payload without the property
    resolves to [undefined], unchecked, unless the payload is itself
    [undefined] or [null]: then reading [feature] throws inside the
    callback and the promise is rejected with that [TypeError]. *)
Theorem getFeature_fails_iff h ro o :
  h !! ro = Some o →
  ∃ url options h',
    ∀ request p h2,
      request url (VRef options) h' = (Normal p, h2) →
      p ≠ Pending →
      ∃ q, getFeature request ro h = (Normal q, h2) ∧
           (¬ resolves_with_feature h2 p q ↔
            transport_fails p ∨ lacks_feature h2 p) ∧
           (∀ e, p = Rejected e → q = Rejected e) ∧
           (∀ v, p = Fulfilled v → feature_of h2 v = None →
                 v ≠ VUndef → v ≠ VNull → q = Fulfilled VUndef) ∧
           (∀ v, p = Fulfilled v → v = VUndef ∨ v = VNull →
                 q = Rejected TypeError).
Proof.
  intros Hro.
  exists (getFeature_url o), (loc2 h GET_default), (getFeature_store h o).
  intros request p h2 Hreq Hsettled.
  rewrite (getFeature_run request h ro o Hro).
  unfold mbind, M_bind, bind. rewrite Hreq.
  destruct p as [|v|e]; [done| |].
  - assert (Hcases : (v = VUndef ∨ v = VNull) ∨ (v ≠ VUndef ∧ v ≠ VNull)).
    { destruct v; first [ by left; left | by left; right
                        | right; split; discriminate ]. }
    destruct Hcases as [Hnull | [Hu Hn]].
    + exists (Rejected TypeError).
      split; [by destruct Hnull as [-> | ->]|].
      assert (Hnone : feature_of h2 v = None)
        by (by destruct Hnull as [-> | ->]).
      split; [|split; [|split]].
      * split.
        -- intros _. right. by exists v.
        -- intros _ (v' & f & _ & _ & Hq). discriminate.
      * intros e He. discriminate.
      * intros v' [= <-] _ Hu Hn. destruct Hnull; contradiction.
      * done.
    + unfold then_. rewrite (unwrap_feature h2 v Hu Hn).
      exists (Fulfilled (default VUndef (feature_of h2 v))).
      split; [done|]. split; [|split; [|split]].
      * destruct (feature_of h2 v) as [f|] eqn:Ef; simpl; split.
        -- intros Hnot. exfalso. apply Hnot. by exists v, f.
        -- intros [[e He] | (v' & [= <-] & Hv')]; [done|]. congruence.
        -- intros _. right. by exists v.
        -- intros _ (v' & f & [= <-] & Hf & _). congruence.
      * intros e He. discriminate.
      * intros v' [= <-] Hv' _ _. by rewrite Hv'.
      * intros v' [= <-] [-> | ->]; contradiction.
  - exists (Rejected e). split; [done|]. split; [|split; [|split]].
    + split.
      * intros _. left. by exists e.
      * intros _ (v & f & Hv & _). discriminate.
    + by intros e' [= <-].
    + intros v Hv. discriminate.
    + intros v Hv. discriminate.
Qed.

Lemma getFeature_fails_iff_witness :
  ∃ p h2 q,
    getFeature (respond r_error) 1 store0 = (Normal q, h2) ∧
    p ≠ Pending ∧
    (¬ resolves_with_feature h2 p q ↔
     transport_fails p ∨ lacks_feature h2 p) ∧
    (∀ e, p = Rejected e → q = Rejected e) ∧
    (∀ v, p = Fulfilled v → feature_of h2 v = None →
          v ≠ VUndef → v ≠ VNull → q = Fulfilled VUndef) ∧
    (∀ v, p = Fulfilled v → v = VUndef ∨ v = VNull →
          q = Rejected TypeError).
Proof.
  destruct (getFeature_fails_iff store0 1%positive o_get)
    as (url & options & h' & H); [reflexivity|].
  destruct (H (respond r_error)
              (Fulfilled (VRef (fresh_loc h')))
              (<[fresh_loc h' := r_error]> h'))
    as (q & Hrun & Hrest); [reflexivity | discriminate |].
  exists (Fulfilled (VRef (fresh_loc h'))), (<[fresh_loc h' := r_error]> h'), q.
  split; [exact Hrun|]. split; [discriminate|exact Hrest].
Defined.

(** C9, as stated, fails: the payload [null] has no [feature] property,
    and the caller is not handed [undefined] but a promise rejected
    with a [TypeError]. *)
Lemma getFeature_null_payload_counterexample :
  let request : transport := λ _ _, ret (Fulfilled VNull) in
  ∃ h2,
    getFeature request 1 store0 = (Normal (Rejected TypeError), h2) ∧
    lacks_feature h2 (Fulfilled VNull) ∧
    getFeature request 1 store0 ≠ (Normal (Fulfilled VUndef), h2).
Proof.
  intros request. exists (getFeature_store store0 o_get).
  assert (Hrun : getFeature request 1 store0 =
                 (Normal (Rejected TypeError), getFeature_store store0 o_get))
    by reflexivity.
  split; [exact Hrun|]. split.
  - by exists VNull.
  - rewrite Hrun. intros [= E].
Qed.

(** ** Rejections *)

Lemma edit_one_call suffix src dst h ro o po :
  h !! ro = Some o → caller_params h o po →
  ∃ url options h',
    ∀ request, edit request suffix src dst ro h = request url (VRef options) h'.
Proof.
  intros Hro Hcp.
  destruct (edit_call suffix src dst h ro o po Hro Hcp) as (P & Hrun & _).
  eexists _, _, _. exact Hrun.
Qed.

Lemma query_one_call h ro o po :
  h !! ro = Some o → caller_params h o po →
  ∃ url options h',
    ∀ request, queryFeatures request ro h = request url (VRef options) h'.
Proof.
  intros Hro Hcp.
  destruct (query_call h ro o po Hro Hcp) as (P & Hrun & _).
  eexists _, _, _. exact Hrun.
Qed.

(** C8.  Each of the five functions makes one request, and whatever
    the transport is, when the promise of that request is rejected with
    [e], the promise the function returns is rejected with the same
    [e]: nothing handles or changes it on the way.  ([getFeature] for
    any options; the other four for params absent or a mapping, which
    is when they reach the transport.) *)
Theorem rejection_propagates h ro o :
  h !! ro = Some o →
  passes_rejection getFeature h ro ∧
  (∀ po, caller_params h o po →
     passes_rejection queryFeatures h ro ∧
     passes_rejection addFeatures h ro ∧
     passes_rejection updateFeatures h ro ∧
     passes_rejection deleteFeatures h ro).
Proof.
  intros Hro.
  split; [|intros po Hcp; split; [|split; [|split]]].
  - exists (getFeature_url o), (loc2 h GET_default), (getFeature_store h o).
    intros request e h2 Hrej.
    rewrite (getFeature_run request h ro o Hro).
    unfold mbind, M_bind, bind. by rewrite Hrej.
  - destruct (query_one_call h ro o po Hro Hcp) as (url & options & h' & Hrun).
    exists url, options, h'. intros request e h2 Hrej.
    by rewrite Hrun.
  - destruct (edit_one_call "/addFeatures" "adds" "features" h ro o po Hro Hcp)
      as (url & options & h' & Hrun).
    exists url, options, h'. intros request e h2 Hrej.
    rewrite <- Hrej. exact (Hrun request).
  - destruct (edit_one_call "/updateFeatures" "updates" "features"
                            h ro o po Hro Hcp)
      as (url & options & h' & Hrun).
    exists url, options, h'. intros request e h2 Hrej.
    rewrite <- Hrej. exact (Hrun request).
  - destruct (edit_one_call "/deleteFeatures" "deletes" "objectIds"
                            h ro o po Hro Hcp)
      as (url & options & h' & Hrun).
    exists url, options, h'. intros request e h2 Hrej.
    rewrite <- Hrej. exact (Hrun request).
Qed.

Lemma rejection_propagates_witness :
  let e := Reason (VStr "503") in
  (∃ h2, getFeature (refuse e) 4 store0 = (Normal (Rejected e), h2)) ∧
  (∃ h2, queryFeatures (refuse e) 4 store0 = (Normal (Rejected e), h2)) ∧
  (∃ h2, addFeatures (refuse e) 4 store0 = (Normal (Rejected e), h2)) ∧
  (∃ h2, updateFeatures (refuse e) 4 store0 = (Normal (Rejected e), h2)) ∧
  (∃ h2, deleteFeatures (refuse e) 4 store0 = (Normal (Rejected e), h2)).
Proof.
  intros e.
  destruct (rejection_propagates store0 4%positive o_edit) as (Hg & Hrest);
    [ reflexivity | ].
  destruct (Hrest p_edit) as (Hq & Ha & Hu & Hd);
    [ right; exists 5%positive; split; reflexivity | ].
  split; [|split; [|split; [|split]]].
  - destruct Hg as (url & options & h' & H). exists h'. apply H. reflexivity.
  - destruct Hq as (url & options & h' & H). exists h'. apply H. reflexivity.
  - destruct Ha as (url & options & h' & H). exists h'. apply H. reflexivity.
  - destruct Hu as (url & options & h' & H). exists h'. apply H. reflexivity.
  - destruct Hd as (url & options & h' & H). exists h'. apply H. reflexivity.
Defined.

(** ** The examples of the specification, run *)

(** [addFeatures({url, adds: A, params: {features: X, other: "Y"}})]
    leaves [features = A] and [other = "Y"] in the params object, which
    is the caller's own. *)
Example addFeatures_overwrites_X :
  let h' := (addFeatures silent 4 store0).2 in
  (h' !! 5%positive ≫= (.!! "features")) = Some (VRef 6) ∧
  (h' !! 5%positive ≫= (.!! "other")) = Some (VStr "Y").
Proof. split; reflexivity. Qed.

(** [deleteFeatures({url, deletes: [1, 2, 3]})] sends [objectIds] as a
    reference to that array, which still holds 1, 2, 3. *)
Example deleteFeatures_123 :
  let h' := (deleteFeatures silent 8 store0).2 in
  transmitted_params h' 13%positive = Some {[ "objectIds" := VRef 9 ]} ∧
  h' !! 9%positive = Some a_123.
Proof. split; reflexivity. Qed.

(** [queryFeatures({url})] sends both defaults. *)
Example queryFeatures_no_params :
  let h' := (queryFeatures silent 1 store0).2 in
  transmitted_params h' 14%positive =
  Some (<[ "outFields" := VStr "*" ]> {[ "where" := VStr "1=1" ]}).
Proof. reflexivity. Qed.

(** After [queryFeatures] the caller's params object has an
    [outFields] it did not have before. *)
Example queryFeatures_writes_outFields :
  (store0 !! 3%positive ≫= (.!! "outFields")) = None ∧
  ((queryFeatures silent 2 store0).2 !! 3%positive ≫= (.!! "outFields"))
  = Some (VStr "*").
Proof. split; reflexivity. Qed.

(** An edit called with [params: undefined] written out throws before
    any request is made. *)
Example addFeatures_params_undefined :
  (addFeatures silent 1 (<[1%positive := <[ "params" := VUndef ]> o_edit]> store0)).1
  = Throw TypeError.
Proof. reflexivity. Qed.

(** * Further properties of the five functions *)

Lemma getFeature_store_frame h o l :
  is_Some (h !! l) → getFeature_store h o !! l = h !! l.
Proof.
  intros Hl. unfold getFeature_store. by rewrite !lookup_insert_ne by loc_ne.
Qed.

Lemma getFeature_options_other (o : object) k :
  k ≠ "httpMethod" → getFeature_options o !! k = o !! k.
Proof.
  intros Hk. unfold getFeature_options, spread.
  destruct (o !! k) eqn:E.
  - by apply lookup_union_Some_l.
  - apply lookup_union_None. split; [done|]. by apply lookup_singleton_ne.
Qed.

Lemma query_options_method h (o : object) :
  query_options h o !! "httpMethod" =
  Some (default (VStr "GET") (o !! "httpMethod")).
Proof.
  unfold query_options. destruct (o !! "httpMethod") as [m|] eqn:E.
  - by apply spread_lookup_l.
  - rewrite (spread_lookup_r _ _ _ E). apply lookup_insert_eq.
Qed.

Lemma query_options_other h (o : object) k :
  k ≠ "params" → k ≠ "httpMethod" → query_options h o !! k = o !! k.
Proof.
  intros Hp Hm. unfold query_options, spread.
  destruct (o !! k) eqn:E.
  - by apply lookup_union_Some_l.
  - apply lookup_union_None. split; [done|]. unfold query_default.
    rewrite lookup_insert_ne by done. by apply lookup_singleton_ne.
Qed.

Lemma with_defaults_id (po : object) :
  truthy (default VUndef (po !! "where")) = true →
  truthy (default VUndef (po !! "outFields")) = true →
  with_defaults po = po.
Proof. intros Hw Hf. unfold with_defaults. by rewrite Hw, Hf. Qed.

Lemma or_default_truthy (found : option value) (d : value) :
  truthy d = true → truthy (or_default found d) = true.
Proof.
  intros Hd. unfold or_default. simpl.
  by destruct (truthy (default VUndef found)) eqn:E.
Qed.

Lemma with_defaults_idem (po : object) :
  with_defaults (with_defaults po) = with_defaults po.
Proof.
  apply with_defaults_id.
  - rewrite with_defaults_where. simpl. by apply or_default_truthy.
  - rewrite with_defaults_outFields. simpl. by apply or_default_truthy.
Qed.

(** X1.  [queryFeatures] is one request to [url + "/query"]; the
    promise of the transport is returned as it is.  The options are a
    new object: its method is GET unless the caller's options name one,
    and every other top-level property but [params] is the caller's. *)
Theorem queryFeatures_query_url_GET h ro o U po :
  h !! ro = Some o → o !! "url" = Some (VStr U) → caller_params h o po →
  ∃ options h',
    (∀ request,
       queryFeatures request ro h = request (U +:+ "/query") (VRef options) h') ∧
    h !! options = None ∧
    deref h' options !! "httpMethod" =
      Some (default (VStr "GET") (o !! "httpMethod")) ∧
    ∀ k, k ≠ "params" → k ≠ "httpMethod" → deref h' options !! k = o !! k.
Proof.
  intros Hro Hu Hcp.
  destruct (query_call h ro o po Hro Hcp) as (P & Hrun & Hne & _).
  rewrite Hu in Hrun. simpl in Hrun.
  eexists _, _. split; [exact Hrun|]. split; [apply loc3_fresh|].
  rewrite deref_insert_ne by done.
  rewrite (deref_Some _ _ _ (query_store_options h o)).
  split; [apply query_options_method|]. intros k. apply query_options_other.
Qed.

Lemma queryFeatures_query_url_GET_witness :
  ∃ options h',
    (∀ request,
       queryFeatures request 2 store0 =
       request (layer +:+ "/query") (VRef options) h') ∧
    store0 !! options = None ∧
    deref h' options !! "httpMethod" =
      Some (default (VStr "GET") (o_query !! "httpMethod")) ∧
    ∀ k, k ≠ "params" → k ≠ "httpMethod" →
         deref h' options !! k = o_query !! k.
Proof.
  apply (queryFeatures_query_url_GET store0 2%positive o_query layer p_query);
    [reflexivity | reflexivity | right; exists 3%positive; split; reflexivity].
Defined.

Lemma edit_passes_through suffix src dst h ro o U po :
  h !! ro = Some o → o !! "url" = Some (VStr U) → caller_params h o po →
  passes_options_through (λ request, edit request suffix src dst)
                         (U +:+ suffix) h ro o.
Proof.
  intros Hro Hu Hcp.
  destruct (edit_transmitted suffix src dst h ro o po Hro Hcp)
    as (options & h' & Hrun & Hfresh & Hk & _).
  rewrite Hu in Hrun. simpl in Hrun. by exists options, h'.
Qed.

(** X2.  Each edit function is one request to [url] followed by its
    own path ([/addFeatures], [/updateFeatures], [/deleteFeatures]),
    and the new options object keeps every top-level property of the
    caller's options other than [params], the payload field ([adds],
    [updates], [deletes]) and [url] among them. *)
Theorem edit_urls_and_options h ro o U po :
  h !! ro = Some o → o !! "url" = Some (VStr U) → caller_params h o po →
  passes_options_through addFeatures (U +:+ "/addFeatures") h ro o ∧
  passes_options_through updateFeatures (U +:+ "/updateFeatures") h ro o ∧
  passes_options_through deleteFeatures (U +:+ "/deleteFeatures") h ro o.
Proof.
  intros Hro Hu Hcp. split; [|split].
  - exact (edit_passes_through "/addFeatures" "adds" "features"
                               h ro o U po Hro Hu Hcp).
  - exact (edit_passes_through "/updateFeatures" "updates" "features"
                               h ro o U po Hro Hu Hcp).
  - exact (edit_passes_through "/deleteFeatures" "deletes" "objectIds"
                               h ro o U po Hro Hu Hcp).
Qed.

Lemma edit_urls_and_options_witness :
  passes_options_through addFeatures (layer +:+ "/addFeatures")
                         store0 4 o_edit ∧
  passes_options_through updateFeatures (layer +:+ "/updateFeatures")
                         store0 4 o_edit ∧
  passes_options_through deleteFeatures (layer +:+ "/deleteFeatures")
                         store0 4 o_edit.
Proof.
  apply (edit_urls_and_options store0 4%positive o_edit layer p_edit);
    [reflexivity | reflexivity | right; exists 5%positive; split; reflexivity].
Defined.

Lemma edit_throws suffix src dst h ro o v :
  h !! ro = Some o → o !! "params" = Some v → v = VUndef ∨ v = VNull →
  throws_before_transport (λ request, edit request suffix src dst) h ro.
Proof.
  intros Hro Hp Hv. exists (edit_store h o). split.
  - intros request. by apply (edit_nullish request suffix src dst h ro o v).
  - intros l. apply edit_store_frame.
Qed.

(** X3.  With [params: undefined] or [params: null] written out in the
    caller's options, the default [params: {}] is overridden by the
    spread and each edit function throws a [TypeError] at the write of
    the reserved key: no request is made and no object of the caller
    is changed. *)
Theorem edit_nullish_params_throw h ro o v :
  h !! ro = Some o → o !! "params" = Some v → v = VUndef ∨ v = VNull →
  throws_before_transport addFeatures h ro ∧
  throws_before_transport updateFeatures h ro ∧
  throws_before_transport deleteFeatures h ro.
Proof.
  intros Hro Hp Hv. split; [|split].
  - exact (edit_throws "/addFeatures" "adds" "features" h ro o v Hro Hp Hv).
  - exact (edit_throws "/updateFeatures" "updates" "features" h ro o v Hro Hp Hv).
  - exact (edit_throws "/deleteFeatures" "deletes" "objectIds" h ro o v Hro Hp Hv).
Qed.

Lemma edit_nullish_params_throw_witness :
  throws_before_transport addFeatures store1 1 ∧
  throws_before_transport updateFeatures store1 1 ∧
  throws_before_transport deleteFeatures store1 1.
Proof.
  apply (edit_nullish_params_throw store1 1%positive o_undef_params VUndef);
    [reflexivity | reflexivity | left; reflexivity].
Defined.

(** X4.  [queryFeatures] called with [params: undefined] or
    [params: null] written out throws a [TypeError] when it reads
    [where]: no request is made and no object of the caller is
    changed. *)
Theorem queryFeatures_nullish_params_throw h ro o v :
  h !! ro = Some o → o !! "params" = Some v → v = VUndef ∨ v = VNull →
  throws_before_transport queryFeatures h ro.
Proof.
  intros Hro Hp Hv. exists (query_store h o). split.
  - intros request. by apply (queryFeatures_nullish request h ro o v).
  - intros l. apply query_store_frame.
Qed.

Lemma queryFeatures_nullish_params_throw_witness :
  throws_before_transport queryFeatures store1 1.
Proof.
  apply (queryFeatures_nullish_params_throw store1 1%positive o_undef_params VUndef);
    [reflexivity | reflexivity | left; reflexivity].
Defined.

(** X5.  [getFeature] writes to no object of the caller and does not
    touch [params]: the options it hands over are a new object that has
    every property of the caller's options other than [httpMethod] as
    the caller gave it, so without caller params there are none. *)
Theorem getFeature_changes_nothing h ro o :
  h !! ro = Some o →
  ∃ url options h',
    (∀ request,
       getFeature request ro h =
       (p ← request url (VRef options);
        then_ p (λ response, get response "feature")) h') ∧
    h !! options = None ∧
    (∀ l, is_Some (h !! l) → h' !! l = h !! l) ∧
    (∀ k, k ≠ "httpMethod" → deref h' options !! k = o !! k) ∧
    (o !! "params" = None → transmitted_params h' options = None).
Proof.
  intros Hro.
  exists (getFeature_url o), (loc2 h GET_default), (getFeature_store h o).
  split; [intros request; by apply getFeature_run|].
  split; [apply loc2_fresh|].
  split; [intros l; apply getFeature_store_frame|].
  unfold transmitted_params.
  rewrite (deref_Some _ _ _ (getFeature_store_options h o)).
  split; [intros k; apply getFeature_options_other|].
  intros Hp. by rewrite getFeature_options_other, Hp.
Qed.

Lemma getFeature_changes_nothing_witness :
  ∃ url options h',
    (∀ request,
       getFeature request 1 store0 =
       (p ← request url (VRef options);
        then_ p (λ response, get response "feature")) h') ∧
    store0 !! options = None ∧
    (∀ l, is_Some (store0 !! l) → h' !! l = store0 !! l) ∧
    (∀ k, k ≠ "httpMethod" → deref h' options !! k = o_get !! k) ∧
    (o_get !! "params" = None → transmitted_params h' options = None).
Proof.
  apply (getFeature_changes_nothing store0 1%positive o_get). reflexivity.
Defined.

(** X6.  Whatever the transport's promise, [getFeature] returns a
    promise and does not throw: a payload of [undefined] or [null], on
    which reading [feature] throws inside the callback, comes out as a
    promise rejected with that [TypeError], and a promise that never
    settles stays so. *)
Theorem getFeature_unwrap_error_rejects request h ro o p h2 :
  h !! ro = Some o →
  request (getFeature_url o) (VRef (loc2 h GET_default)) (getFeature_store h o)
  = (Normal p, h2) →
  ∃ q, getFeature request ro h = (Normal q, h2) ∧
       (∀ v, p = Fulfilled v → v = VUndef ∨ v = VNull →
             q = Rejected TypeError) ∧
       (p = Pending → q = Pending).
Proof.
  intros Hro Hreq. rewrite (getFeature_run request h ro o Hro).
  unfold mbind, M_bind, bind. rewrite Hreq.
  destruct p as [|v|e].
  - exists Pending. split; [done|]. split; [intros v Hv; discriminate|done].
  - unfold then_. destruct (get v "feature" h2) as [[r|e] h3] eqn:Eg.
    + assert (h3 = h2) as ->.
      { destruct v; simpl in Eg; unfold throw, ret in Eg; congruence. }
      exists (Fulfilled r). split; [done|].
      split; [|intros Hv; discriminate].
      intros v' [= <-] [-> | ->]; simpl in Eg; unfold throw in Eg; congruence.
    + assert (h3 = h2 ∧ e = TypeError) as [-> ->].
      { destruct v; simpl in Eg; unfold throw, ret in Eg; split; congruence. }
      exists (Rejected TypeError). split; [done|].
      split; [done|intros Hv; discriminate].
  - exists (Rejected e). split; [done|].
    split; [intros v Hv; discriminate|intros Hv; discriminate].
Qed.

Lemma getFeature_unwrap_error_rejects_witness :
  let h2 := getFeature_store store0 o_get in
  let p := Fulfilled VNull in
  ∃ q, getFeature (λ _ _, ret p) 1 store0 = (Normal q, h2) ∧
       (∀ v, p = Fulfilled v → v = VUndef ∨ v = VNull →
             q = Rejected TypeError) ∧
       (p = Pending → q = Pending).
Proof.
  intros h2 p.
  apply (getFeature_unwrap_error_rejects
           (λ _ _, ret p) store0 1%positive o_get p h2);
    reflexivity.
Defined.

(** X7.  When the caller's params object already has a truthy [where]
    and a truthy [outFields], [queryFeatures] writes nothing: the
    options refer to the caller's params object and every object of
    the caller is as it was. *)
Theorem queryFeatures_truthy_params_untouched h ro o pl po :
  h !! ro = Some o → o !! "params" = Some (VRef pl) → h !! pl = Some po →
  truthy (default VUndef (po !! "where")) = true →
  truthy (default VUndef (po !! "outFields")) = true →
  ∃ url options h',
    (∀ request, queryFeatures request ro h = request url (VRef options) h') ∧
    deref h' options !! "params" = Some (VRef pl) ∧
    ∀ l, is_Some (h !! l) → h' !! l = h !! l.
Proof.
  intros Hro Hp Hpl Hw Hf.
  eexists _, (loc3 h ∅ (query_default h)), _.
  split; [intros request; by apply queryFeatures_supplied|].
  rewrite (with_defaults_id po Hw Hf). split.
  - rewrite deref_insert_ne by loc_ne.
    rewrite (deref_Some _ _ _ (query_store_options h o)).
    by apply spread_lookup_l.
  - intros l Hl. destruct (decide (pl = l)) as [<- | Hne].
    + by rewrite lookup_insert_eq.
    + rewrite lookup_insert_ne by done. by apply query_store_frame.
Qed.

Lemma queryFeatures_truthy_params_untouched_witness :
  ∃ url options h',
    (∀ request, queryFeatures request 3 store1 = request url (VRef options) h') ∧
    deref h' options !! "params" = Some (VRef 4) ∧
    ∀ l, is_Some (store1 !! l) → h' !! l = store1 !! l.
Proof.
  apply (queryFeatures_truthy_params_untouched
           store1 3%positive o_query_full 4%positive p_full);
    reflexivity.
Defined.

(** X8.  A second [queryFeatures] call with the same options finds the
    defaults the first one wrote and writes nothing more: the caller's
    params object is after the second call what it was after the first,
    while each call builds an options object of its own. *)
Theorem queryFeatures_second_call_writes_nothing h ro o pl po :
  h !! ro = Some o → o !! "params" = Some (VRef pl) → h !! pl = Some po →
  ro ≠ pl →
  ∃ url options1 h1,
    (∀ request, queryFeatures request ro h = request url (VRef options1) h1) ∧
    ∃ options2 h2,
      (∀ request,
         queryFeatures request ro h1 = request url (VRef options2) h2) ∧
      options2 ≠ options1 ∧
      h2 !! pl = h1 !! pl ∧
      h2 !! pl = Some (with_defaults po).
Proof.
  intros Hro Hp Hpl Hne.
  set (h1 := <[pl := with_defaults po]> (query_store h o)).
  assert (Hro1 : h1 !! ro = Some o).
  { unfold h1. rewrite lookup_insert_ne by done.
    rewrite query_store_frame by eauto. done. }
  assert (Hpl1 : h1 !! pl = Some (with_defaults po))
    by apply lookup_insert_eq.
  assert (Ho1 : is_Some (h1 !! loc3 h ∅ (query_default h))).
  { unfold h1. rewrite lookup_insert_ne by loc_ne.
    rewrite query_store_options. eauto. }
  exists (ToString (default VUndef (o !! "url")) +:+ "/query"),
         (loc3 h ∅ (query_default h)), h1.
  split; [intros request; by apply queryFeatures_supplied|].
  exists (loc3 h1 ∅ (query_default h1)),
         (<[pl := with_defaults (with_defaults po)]> (query_store h1 o)).
  split; [intros request; by apply queryFeatures_supplied|].
  split.
  { intros E. rewrite <- E in Ho1. rewrite loc3_fresh in Ho1.
    by destruct Ho1. }
  rewrite lookup_insert_eq, with_defaults_idem. by rewrite Hpl1.
Qed.

Lemma queryFeatures_second_call_writes_nothing_witness :
  ∃ url options1 h1,
    (∀ request,
       queryFeatures request 2 store0 = request url (VRef options1) h1) ∧
    ∃ options2 h2,
      (∀ request,
         queryFeatures request 2 h1 = request url (VRef options2) h2) ∧
      options2 ≠ options1 ∧
      h2 !! 3%positive = h1 !! 3%positive ∧
      h2 !! 3%positive = Some (with_defaults p_query).
Proof.
  apply (queryFeatures_second_call_writes_nothing
           store0 2%positive o_query 3%positive p_query);
    [reflexivity | reflexivity | reflexivity | discriminate].
Defined.

(** X9.  A params object used for two edit calls carries the payload
    of the first into the second: after [addFeatures] has written
    [features] into the caller's params object, [deleteFeatures] called
    with the same object (and a transport that leaves the store alone
    in between) sends both [objectIds] and the earlier [features]. *)
Theorem edit_payload_carried_into_next_call h roA oA roD oD pl po a d :
  h !! roA = Some oA → oA !! "params" = Some (VRef pl) →
  oA !! "adds" = Some a →
  h !! roD = Some oD → oD !! "params" = Some (VRef pl) →
  oD !! "deletes" = Some d →
  h !! pl = Some po → roD ≠ pl →
  ∃ urlA optionsA hA,
    (∀ request,
       addFeatures request roA h = request urlA (VRef optionsA) hA) ∧
    ∃ urlD optionsD hD,
      (∀ request,
         deleteFeatures request roD hA = request urlD (VRef optionsD) hD) ∧
      ∃ tp, transmitted_params hD optionsD = Some tp ∧
            tp !! "objectIds" = Some d ∧
            tp !! "features" = Some a.
Proof.
  intros HroA HpA Ha HroD HpD Hd Hpl Hne.
  set (hA := <[pl := <[ "features" := a ]> po]> (edit_store h oA)).
  assert (HroD' : hA !! roD = Some oD).
  { unfold hA. rewrite lookup_insert_ne by done.
    rewrite edit_store_frame by eauto. done. }
  assert (Hpl' : hA !! pl = Some (<[ "features" := a ]> po))
    by apply lookup_insert_eq.
  exists (ToString (default VUndef (oA !! "url")) +:+ "/addFeatures"),
         (loc2 h ∅), hA.
  split.
  { intros request.
    pose proof (edit_supplied request "/addFeatures" "adds" "features"
                              h roA oA pl po HroA HpA Hpl) as Hrun.
    rewrite Ha in Hrun. exact Hrun. }
  destruct (edit_transmitted "/deleteFeatures" "deletes" "objectIds"
                             hA roD oD (<[ "features" := a ]> po) HroD')
    as (optionsD & hD & Hrun & _ & _ & Htp).
  { right. eauto. }
  rewrite Hd in Htp. simpl in Htp.
  eexists _, optionsD, hD. split; [exact Hrun|].
  eexists. split; [exact Htp|]. split.
  - apply lookup_insert_eq.
  - rewrite lookup_insert_ne by done. apply lookup_insert_eq.
Qed.

Lemma edit_payload_carried_into_next_call_witness :
  ∃ urlA optionsA hA,
    (∀ request,
       addFeatures request 4 store0 = request urlA (VRef optionsA) hA) ∧
    ∃ urlD optionsD hD,
      (∀ request,
         deleteFeatures request 4 hA = request urlD (VRef optionsD) hD) ∧
      ∃ tp, transmitted_params hD optionsD = Some tp ∧
            tp !! "objectIds" = Some (VRef 9) ∧
            tp !! "features" = Some (VRef 6).
Proof.
  apply (edit_payload_carried_into_next_call
           store0 4%positive o_edit 4%positive o_edit 5%positive p_edit
           (VRef 6) (VRef 9));
    [reflexivity | reflexivity | reflexivity | reflexivity | reflexivity
    | reflexivity | reflexivity | discriminate].
Defined.

(** X10.  [queryFeatures] writes to the params object only.  With a
    params object of the caller's, every other object of the caller is
    as it was; without one, all of them are, and the params sent are a
    new mapping holding just the two defaults. *)
Theorem queryFeatures_writes_params_only h ro o :
  h !! ro = Some o →
  (∀ pl po, o !! "params" = Some (VRef pl) → h !! pl = Some po →
     ∃ url options h',
       (∀ request, queryFeatures request ro h = request url (VRef options) h') ∧
       ∀ l, l ≠ pl → is_Some (h !! l) → h' !! l = h !! l) ∧
  (o !! "params" = None →
     ∃ url options h',
       (∀ request, queryFeatures request ro h = request url (VRef options) h') ∧
       (∀ l, is_Some (h !! l) → h' !! l = h !! l) ∧
       ∃ pl, deref h' options !! "params" = Some (VRef pl) ∧
             h !! pl = None ∧
             h' !! pl = Some (<[ "outFields" := VStr "*" ]>
                                {[ "where" := VStr "1=1" ]})).
Proof.
  intros Hro. split.
  - intros pl po Hp Hpl. eexists _, _, _.
    split; [intros request; by apply queryFeatures_supplied|].
    intros l Hl Hlive. rewrite lookup_insert_ne by done.
    by apply query_store_frame.
  - intros Hp. eexists _, (loc3 h ∅ (query_default h)), _.
    split; [intros request; by apply queryFeatures_absent|].
    split.
    { intros l Hlive. rewrite lookup_insert_ne by loc_ne.
      by apply query_store_frame. }
    exists (loc1 h). split; [|split].
    + rewrite deref_insert_ne by loc_ne.
      rewrite (deref_Some _ _ _ (query_store_options h o)).
      unfold query_options. rewrite (spread_lookup_r _ _ _ Hp).
      unfold query_default. by rewrite lookup_insert_ne, lookup_singleton_eq.
    + apply loc1_fresh.
    + rewrite lookup_insert_eq. reflexivity.
Qed.

Lemma queryFeatures_writes_params_only_witness :
  (∀ pl po, o_get !! "params" = Some (VRef pl) → store0 !! pl = Some po →
     ∃ url options h',
       (∀ request,
          queryFeatures request 1 store0 = request url (VRef options) h') ∧
       ∀ l, l ≠ pl → is_Some (store0 !! l) → h' !! l = store0 !! l) ∧
  (o_get !! "params" = None →
     ∃ url options h',
       (∀ request,
          queryFeatures request 1 store0 = request url (VRef options) h') ∧
       (∀ l, is_Some (store0 !! l) → h' !! l = store0 !! l) ∧
       ∃ pl, deref h' options !! "params" = Some (VRef pl) ∧
             store0 !! pl = None ∧
             h' !! pl = Some (<[ "outFields" := VStr "*" ]>
                                {[ "where" := VStr "1=1" ]})).
Proof.
  apply (queryFeatures_writes_params_only store0 1%positive o_get). reflexivity.
Defined.

(** X11.  The [url] is not checked.  When the caller's options have no
    [url], the template literal prints [undefined] and the request is
    made all the same, to ["undefined/query"], ["undefined/addFeatures"]
    and so on; [getFeature] requests ["undefined/"] followed by the
    numeral of a safe-integer [id], and ["undefined/undefined"] when
    the [id] is missing too. *)
Theorem missing_url_is_not_checked h ro o po :
  h !! ro = Some o → o !! "url" = None → caller_params h o po →
  (∃ options h', ∀ request,
     queryFeatures request ro h = request "undefined/query" (VRef options) h') ∧
  (∃ options h', ∀ request,
     addFeatures request ro h =
     request "undefined/addFeatures" (VRef options) h') ∧
  (∃ options h', ∀ request,
     updateFeatures request ro h =
     request "undefined/updateFeatures" (VRef options) h') ∧
  (∃ options h', ∀ request,
     deleteFeatures request ro h =
     request "undefined/deleteFeatures" (VRef options) h') ∧
  (∀ n, o !! "id" = Some (VNum n) → safe_integer n →
   ∃ options h', ∀ request,
     getFeature request ro h =
     (p ← request ("undefined/" +:+ pretty n) (VRef options);
      then_ p (λ response, get response "feature")) h') ∧
  (o !! "id" = None →
   ∃ options h', ∀ request,
     getFeature request ro h =
     (p ← request "undefined/undefined" (VRef options);
      then_ p (λ response, get response "feature")) h').
Proof.
  intros Hro Hu Hcp.
  assert (Hg : getFeature_url o =
               "undefined/" +:+ ToString (default VUndef (o !! "id")))
    by (unfold getFeature_url; by rewrite Hu).
  split; [|split; [|split; [|split; [|split]]]].
  - destruct (query_call h ro o po Hro Hcp) as (P & Hrun & _).
    rewrite Hu in Hrun. eexists _, _. exact Hrun.
  - destruct (edit_call "/addFeatures" "adds" "features" h ro o po Hro Hcp)
      as (P & Hrun & _).
    rewrite Hu in Hrun. eexists _, _. exact Hrun.
  - destruct (edit_call "/updateFeatures" "updates" "features" h ro o po Hro Hcp)
      as (P & Hrun & _).
    rewrite Hu in Hrun. eexists _, _. exact Hrun.
  - destruct (edit_call "/deleteFeatures" "deletes" "objectIds" h ro o po Hro Hcp)
      as (P & Hrun & _).
    rewrite Hu in Hrun. eexists _, _. exact Hrun.
  - intros n Hi _. rewrite Hi in Hg. simpl in Hg.
    eexists _, _. intros request. rewrite <- Hg. by apply getFeature_run.
  - intros Hi. rewrite Hi in Hg. eexists _, _. intros request.
    change (getFeature_url o = "undefined/undefined") in Hg.
    rewrite <- Hg. by apply getFeature_run.
Qed.

Lemma missing_url_is_not_checked_witness :
  (∃ options h', ∀ request,
     queryFeatures request 2 store1 = request "undefined/query" (VRef options) h') ∧
  (∃ options h', ∀ request,
     addFeatures request 2 store1 =
     request "undefined/addFeatures" (VRef options) h') ∧
  (∃ options h', ∀ request,
     updateFeatures request 2 store1 =
     request "undefined/updateFeatures" (VRef options) h') ∧
  (∃ options h', ∀ request,
     deleteFeatures request 2 store1 =
     request "undefined/deleteFeatures" (VRef options) h') ∧
  (∃ options h', ∀ request,
     getFeature request 2 store1 =
     (p ← request "undefined/7" (VRef options);
      then_ p (λ response, get response "feature")) h').
Proof.
  destruct (missing_url_is_not_checked store1 2%positive o_no_url p_full)
    as (Hq & Ha & Hu & Hd & Hg & _);
    [reflexivity | reflexivity | right; exists 4%positive; split; reflexivity | ].
  split; [exact Hq|]. split; [exact Ha|]. split; [exact Hu|].
  split; [exact Hd|].
  apply (Hg 7%Z); [reflexivity | unfold safe_integer, MAX_SAFE_INTEGER; lia].
Defined.

(** X12.  Each of the five functions makes one request, and whatever
    the transport is, when that request throws [e] instead of returning
    a promise, the function throws the same [e]: nothing is caught
    around the call.  ([getFeature] for any options; the other four for
    params absent or a mapping, which is when they reach the
    transport.) *)
Theorem transport_throw_propagates h ro o :
  h !! ro = Some o →
  passes_throw getFeature h ro ∧
  (∀ po, caller_params h o po →
     passes_throw queryFeatures h ro ∧
     passes_throw addFeatures h ro ∧
     passes_throw updateFeatures h ro ∧
     passes_throw deleteFeatures h ro).
Proof.
  intros Hro.
  split; [|intros po Hcp; split; [|split; [|split]]].
  - exists (getFeature_url o), (loc2 h GET_default), (getFeature_store h o).
    intros request e h2 Hthrow.
    rewrite (getFeature_run request h ro o Hro).
    unfold mbind, M_bind, bind. by rewrite Hthrow.
  - destruct (query_one_call h ro o po Hro Hcp) as (url & options & h' & Hrun).
    exists url, options, h'. intros request e h2 Hthrow.
    by rewrite Hrun.
  - destruct (edit_one_call "/addFeatures" "adds" "features" h ro o po Hro Hcp)
      as (url & options & h' & Hrun).
    exists url, options, h'. intros request e h2 Hthrow.
    rewrite <- Hthrow. exact (Hrun request).
  - destruct (edit_one_call "/updateFeatures" "updates" "features"
                            h ro o po Hro Hcp)
      as (url & options & h' & Hrun).
    exists url, options, h'. intros request e h2 Hthrow.
    rewrite <- Hthrow. exact (Hrun request).
  - destruct (edit_one_call "/deleteFeatures" "deletes" "objectIds"
                            h ro o po Hro Hcp)
      as (url & options & h' & Hrun).
    exists url, options, h'. intros request e h2 Hthrow.
    rewrite <- Hthrow. exact (Hrun request).
Qed.

Lemma transport_throw_propagates_witness :
  let e := Reason (VStr "no fetch") in
  (∃ h2, getFeature (crash e) 4 store0 = (Throw e, h2)) ∧
  (∃ h2, queryFeatures (crash e) 4 store0 = (Throw e, h2)) ∧
  (∃ h2, addFeatures (crash e) 4 store0 = (Throw e, h2)) ∧
  (∃ h2, updateFeatures (crash e) 4 store0 = (Throw e, h2)) ∧
  (∃ h2, deleteFeatures (crash e) 4 store0 = (Throw e, h2)).
Proof.
  intros e.
  destruct (transport_throw_propagates store0 4%positive o_edit) as (Hg & Hrest);
    [ reflexivity | ].
  destruct (Hrest p_edit) as (Hq & Ha & Hu & Hd);
    [ right; exists 5%positive; split; reflexivity | ].
  split; [|split; [|split; [|split]]].
  - destruct Hg as (url & options & h' & H). exists h'. apply H. reflexivity.
  - destruct Hq as (url & options & h' & H). exists h'. apply H. reflexivity.
  - destruct Ha as (url & options & h' & H). exists h'. apply H. reflexivity.
  - destruct Hu as (url & options & h' & H). exists h'. apply H. reflexivity.
  - destruct Hd as (url & options & h' & H). exists h'. apply H. reflexivity.
Defined.

Lemma edit_missing_payload suffix src dst h ro o po :
  h !! ro = Some o → caller_params h o po → o !! src = None →
  ∃ url options h',
    (∀ request,
       edit request suffix src dst ro h = request url (VRef options) h') ∧
    ∃ tp, transmitted_params h' options = Some tp ∧
          tp !! dst = Some VUndef.
Proof.
  intros Hro Hcp Hsrc.
  destruct (edit_transmitted suffix src dst h ro o po Hro Hcp)
    as (options & h' & Hrun & _ & _ & Htp).
  rewrite Hsrc in Htp. simpl in Htp.
  eexists _, options, h'. split; [exact Hrun|].
  eexists. split; [exact Htp|]. apply lookup_insert_eq.
Qed.

(** X13.  The payload is not checked.  When the caller's options lack
    [adds] ([updates], [deletes]), the request is made all the same and
    the reserved key is sent with the value [undefined], replacing
    whatever the caller's params held under it. *)
Theorem edit_missing_payload_sends_undefined h ro o po :
  h !! ro = Some o → caller_params h o po →
  (o !! "adds" = None →
   ∃ url options h',
     (∀ request, addFeatures request ro h = request url (VRef options) h') ∧
     ∃ tp, transmitted_params h' options = Some tp ∧
           tp !! "features" = Some VUndef) ∧
  (o !! "updates" = None →
   ∃ url options h',
     (∀ request, updateFeatures request ro h = request url (VRef options) h') ∧
     ∃ tp, transmitted_params h' options = Some tp ∧
           tp !! "features" = Some VUndef) ∧
  (o !! "deletes" = None →
   ∃ url options h',
     (∀ request, deleteFeatures request ro h = request url (VRef options) h') ∧
     ∃ tp, transmitted_params h' options = Some tp ∧
           tp !! "objectIds" = Some VUndef).
Proof.
  intros Hro Hcp. split; [|split]; intros Hsrc.
  - exact (edit_missing_payload "/addFeatures" "adds" "features"
                                h ro o po Hro Hcp Hsrc).
  - exact (edit_missing_payload "/updateFeatures" "updates" "features"
                                h ro o po Hro Hcp Hsrc).
  - exact (edit_missing_payload "/deleteFeatures" "deletes" "objectIds"
                                h ro o po Hro Hcp Hsrc).
Qed.

Lemma edit_missing_payload_sends_undefined_witness :
  (o_query !! "adds" = None →
   ∃ url options h',
     (∀ request, addFeatures request 2 store0 = request url (VRef options) h') ∧
     ∃ tp, transmitted_params h' options = Some tp ∧
           tp !! "features" = Some VUndef) ∧
  (o_query !! "updates" = None →
   ∃ url options h',
     (∀ request, updateFeatures request 2 store0 = request url (VRef options) h') ∧
     ∃ tp, transmitted_params h' options = Some tp ∧
           tp !! "features" = Some VUndef) ∧
  (o_query !! "deletes" = None →
   ∃ url options h',
     (∀ request, deleteFeatures request 2 store0 = request url (VRef options) h') ∧
     ∃ tp, transmitted_params h' options = Some tp ∧
           tp !! "objectIds" = Some VUndef).
Proof.
  apply (edit_missing_payload_sends_undefined store0 2%positive o_query p_query);
    [reflexivity | right; exists 3%positive; split; reflexivity].
Defined.
